(** * Uber-Copilot: the voice-enabled chat page

    A shallow embedding of the chat controller of the front end: the
    [ChatPage] component with voice input and voice output
    ([handleSendMessage], [speakResponse], [toggleVoiceInput],
    [toggleVoiceOutput] and the handlers of its recognition instance),
    the stand-alone [VoiceInput] component and [chatAPI.sendMessage],
    together with the properties of the controller stated in the
    specification.

    React state is modelled by explicit state passing.  A [World] holds
    the [useState] cells of the page and what the page has asked of the
    platform: the requests sent, the calls made on the speech synthesis
    and recognition engines, and the call of [handleSendMessage] that is
    suspended on its await.  One event is handled at a time and the
    component is rendered before the next one, as React does for
    discrete events.

    A handler reads the state of the render that made it.  The handlers
    made at every render read the current state.  [handleSendMessage] is
    memoized by [useCallback] on [inputMessage], [isLoading] and
    [earnerId]: it reads these three as they are now, and calls the
    [speakResponse] of the render in which one of them last changed.

    The file also embeds the [ChatInterface] component that hosts
    [VoiceInput], the hours, platform and context controls of
    [EarningsPage] with the requests of [predictEarnings], and
    [apiUtils].

    What is not modelled: a browser without [window.speechSynthesis], a
    reply whose [response] is not a string, and the exception of a
    second [recognition.start()]. *)

From Stdlib Require Import List Sorted ZArith NArith QArith Bool String Ascii Lia.
Import ListNotations.
Local Open Scope Z_scope.

(** ** JavaScript strings

    A JavaScript string is a sequence of UTF-16 code units. *)

Definition jsstring := list N.

(** A literal of the source, for the ASCII literals used here. *)
Definition js (s : string) : jsstring :=
  map N_of_ascii (list_ascii_of_string s).

(** A string is truthy when it is not empty. *)
Definition truthy (s : jsstring) : bool :=
  match s with
  | [] => false
  | _ :: _ => true
  end.

Definition jsstring_eqb (a b : jsstring) : bool :=
  if list_eq_dec N.eq_dec a b then true else false.

(** The code units [String.prototype.trim] removes: WhiteSpace and
    LineTerminator of ECMAScript. *)
Definition isWhiteSpace (c : N) : bool :=
  ((9 <=? c) && (c <=? 13) || (c =? 32) || (c =? 160) || (c =? 5760)
   || (8192 <=? c) && (c <=? 8202) || (c =? 8232) || (c =? 8233)
   || (c =? 8239) || (c =? 8287) || (c =? 12288) || (c =? 65279))%N.

Fixpoint trimStart (s : jsstring) : jsstring :=
  match s with
  | [] => []
  | c :: s' => if isWhiteSpace c then trimStart s' else s
  end.

Definition trim (s : jsstring) : jsstring :=
  rev (trimStart (rev (trimStart s))).

(** ** Messages *)

Inductive Sender := user | bot.

(** [isError] is only written on the locally made failure message; a
    message without the field reads as [false]. *)
Record Message := {
  id : Z;
  type : Sender;
  content : jsstring;
  timestamp : Z;
  earnerInsights : option jsstring;
  isError : bool
}.

(** ** The state of [ChatPage] (its [useState] cells) *)

Record ChatPage := {
  messages : list Message;
  inputMessage : jsstring;
  isLoading : bool;
  earnerId : jsstring;
  isListening : bool;
  voiceSupported : bool;
  recognition : bool;          (* the recognition instance is not null *)
  isSpeaking : bool;
  voiceOutputEnabled : bool
}.

(** ** The platform services *)

(** [new SpeechSynthesisUtterance(cleanText)] with the three settings. *)
Record Utterance := {
  text : jsstring;
  rate : Q;
  pitch : Q;
  volume : Q
}.

Inductive SynthesisCall :=
| Cancel
| Speak (u : Utterance).

Inductive RecognitionCall :=
| Start
| Stop.

(** The body of [api.post('/chat', ...)]. *)
Record Request := {
  message : jsstring;
  earner_id : jsstring;
  conversation_history : list Message
}.

(** What the await of [handleSendMessage] keeps: the variables of the
    call the rest of the function reads.  [speakResponse] is the function
    of the render that made the running callback, so it reads the
    [voiceOutputEnabled] of that render. *)
Record Suspended := {
  k_timestamp : Z;
  k_voiceOutputEnabled : bool
}.

Record World := {
  page : ChatPage;
  (* the [voiceOutputEnabled] seen by the memoized [handleSendMessage] *)
  memoVoiceOutputEnabled : bool;
  awaiting : list Suspended;
  network : list Request;
  synthesis : list SynthesisCall;
  utterances : list Utterance;     (* the queue of the synthesis engine *)
  capture : list RecognitionCall
}.

(** *** State setters *)

Definition onPage (f : ChatPage -> ChatPage) (w : World) : World :=
  {| page := f (page w);
     memoVoiceOutputEnabled := memoVoiceOutputEnabled w;
     awaiting := awaiting w;
     network := network w;
     synthesis := synthesis w;
     utterances := utterances w;
     capture := capture w |}.

Definition setMessages (f : list Message -> list Message) : World -> World :=
  onPage (fun p =>
    {| messages := f (messages p); inputMessage := inputMessage p;
       isLoading := isLoading p; earnerId := earnerId p;
       isListening := isListening p; voiceSupported := voiceSupported p;
       recognition := recognition p; isSpeaking := isSpeaking p;
       voiceOutputEnabled := voiceOutputEnabled p |}).

Definition setInputMessage (v : jsstring) : World -> World :=
  onPage (fun p =>
    {| messages := messages p; inputMessage := v;
       isLoading := isLoading p; earnerId := earnerId p;
       isListening := isListening p; voiceSupported := voiceSupported p;
       recognition := recognition p; isSpeaking := isSpeaking p;
       voiceOutputEnabled := voiceOutputEnabled p |}).

Definition setIsLoading (v : bool) : World -> World :=
  onPage (fun p =>
    {| messages := messages p; inputMessage := inputMessage p;
       isLoading := v; earnerId := earnerId p;
       isListening := isListening p; voiceSupported := voiceSupported p;
       recognition := recognition p; isSpeaking := isSpeaking p;
       voiceOutputEnabled := voiceOutputEnabled p |}).

Definition setIsListening (v : bool) : World -> World :=
  onPage (fun p =>
    {| messages := messages p; inputMessage := inputMessage p;
       isLoading := isLoading p; earnerId := earnerId p;
       isListening := v; voiceSupported := voiceSupported p;
       recognition := recognition p; isSpeaking := isSpeaking p;
       voiceOutputEnabled := voiceOutputEnabled p |}).

Definition setIsSpeaking (v : bool) : World -> World :=
  onPage (fun p =>
    {| messages := messages p; inputMessage := inputMessage p;
       isLoading := isLoading p; earnerId := earnerId p;
       isListening := isListening p; voiceSupported := voiceSupported p;
       recognition := recognition p; isSpeaking := v;
       voiceOutputEnabled := voiceOutputEnabled p |}).

Definition setVoiceOutputEnabled (v : bool) : World -> World :=
  onPage (fun p =>
    {| messages := messages p; inputMessage := inputMessage p;
       isLoading := isLoading p; earnerId := earnerId p;
       isListening := isListening p; voiceSupported := voiceSupported p;
       recognition := recognition p; isSpeaking := isSpeaking p;
       voiceOutputEnabled := v |}).

(** *** Calls into the platform *)

(** [window.speechSynthesis.cancel()]: removes every utterance from the
    queue of the engine. *)
Definition speechSynthesis_cancel (w : World) : World :=
  {| page := page w;
     memoVoiceOutputEnabled := memoVoiceOutputEnabled w;
     awaiting := awaiting w;
     network := network w;
     synthesis := synthesis w ++ [Cancel];
     utterances := [];
     capture := capture w |}.

(** [window.speechSynthesis.speak(utterance)]: adds the utterance to the
    end of the queue of the engine. *)
Definition speechSynthesis_speak (u : Utterance) (w : World) : World :=
  {| page := page w;
     memoVoiceOutputEnabled := memoVoiceOutputEnabled w;
     awaiting := awaiting w;
     network := network w;
     synthesis := synthesis w ++ [Speak u];
     utterances := utterances w ++ [u];
     capture := capture w |}.

(** The engine is done with the utterance at the head of its queue. *)
Definition speechSynthesis_finish (w : World) : World :=
  {| page := page w;
     memoVoiceOutputEnabled := memoVoiceOutputEnabled w;
     awaiting := awaiting w;
     network := network w;
     synthesis := synthesis w;
     utterances := tl (utterances w);
     capture := capture w |}.

Definition recognition_call (c : RecognitionCall) (w : World) : World :=
  {| page := page w;
     memoVoiceOutputEnabled := memoVoiceOutputEnabled w;
     awaiting := awaiting w;
     network := network w;
     synthesis := synthesis w;
     utterances := utterances w;
     capture := capture w ++ [c] |}.

(** [api.post('/chat', body)] is issued and the caller is suspended on
    the promise. *)
Definition api_post_chat (body : Request) (k : Suspended) (w : World) : World :=
  {| page := page w;
     memoVoiceOutputEnabled := memoVoiceOutputEnabled w;
     awaiting := awaiting w ++ [k];
     network := network w ++ [body];
     synthesis := synthesis w;
     utterances := utterances w;
     capture := capture w |}.

Definition resumed (w : World) : World :=
  {| page := page w;
     memoVoiceOutputEnabled := memoVoiceOutputEnabled w;
     awaiting := tl (awaiting w);
     network := network w;
     synthesis := synthesis w;
     utterances := utterances w;
     capture := capture w |}.

Definition setMemo (v : bool) (w : World) : World :=
  {| page := page w;
     memoVoiceOutputEnabled := v;
     awaiting := awaiting w;
     network := network w;
     synthesis := synthesis w;
     utterances := utterances w;
     capture := capture w |}.

(** ** Exceptions

    Code that can throw returns a completion next to the new state. *)

Inductive Exception :=
| AxiosError (status : option Z)       (* rejected by axios *)
| Error (msg : jsstring).              (* [new Error(msg)] *)

Inductive Completion (A : Type) :=
| Normal (a : A)
| Throw (e : Exception).
Arguments Normal {A} a.
Arguments Throw {A} e.

Definition Eff (A : Type) : Type := World -> Completion A * World.

Definition ret {A} (a : A) : Eff A := fun w => (Normal a, w).

Definition throw {A} (e : Exception) : Eff A := fun w => (Throw e, w).

Definition bind {A B} (m : Eff A) (f : A -> Eff B) : Eff B :=
  fun w =>
    match m w with
    | (Normal a, w') => f a w'
    | (Throw e, w') => (Throw e, w')
    end.

Definition perform (f : World -> World) : Eff unit :=
  fun w => (Normal tt, f w).

Declare Scope eff_scope.
Delimit Scope eff_scope with eff.
Notation "x <- m ;; k" := (bind m (fun x => k))
  (at level 61, m at next level, right associativity) : eff_scope.
Notation "m ;; k" := (bind m (fun _ => k))
  (at level 61, right associativity) : eff_scope.

(** [try { body } catch (error) { handler error }] *)
Definition tryCatch {A} (body : Eff A) (handler : Exception -> Eff A) : Eff A :=
  fun w =>
    match body w with
    | (Normal a, w') => (Normal a, w')
    | (Throw e, w') => handler e w'
    end.

(** [try { body } catch (error) { handler error } finally { finalizer }],
    for a finalizer that does not throw. *)
Definition tryCatchFinally {A} (body : Eff A) (handler : Exception -> Eff A)
    (finalizer : World -> World) : Eff A :=
  fun w =>
    let (c, w') := tryCatch body handler w in (c, finalizer w').

(** ** [chatAPI.sendMessage] (services/api.js) *)

Record ResponseData := {
  response : jsstring;
  earner_insights : option jsstring
}.

(** What comes back for a request: an answer with its HTTP status, no
    answer at all, or none within the 60 s of the axios instance. *)
Inductive Transport :=
| Answered (status : Z) (data : ResponseData)
| NetworkError
| TimedOut.

(** The promise of [api.post]: axios resolves it for a status from 200
    to 299 and rejects it otherwise; the response interceptor logs and
    rejects again. *)
Definition api_post_settled (t : Transport) : Eff ResponseData :=
  match t with
  | Answered status data =>
      if (200 <=? status) && (status <? 300) then ret data
      else throw (AxiosError (Some status))
  | NetworkError => throw (AxiosError None)
  | TimedOut => throw (AxiosError None)
  end.

(** [sendMessage] up to its await: the request leaves. *)
Definition chatAPI_sendMessage (msg : jsstring) (earner : jsstring)
    (k : Suspended) : World -> World :=
  api_post_chat
    {| message := msg; earner_id := earner; conversation_history := [] |} k.

(** [sendMessage] from its await on. *)
Definition chatAPI_sendMessage_settled (t : Transport) : Eff ResponseData :=
  tryCatch (api_post_settled t)
    (fun _ => throw (Error (js "Failed to send message. Please try again."))).

(** ** [ChatPage] *)

(** The code units of the class
    [/[📊🚀💡🎯⭐✅❌🔴🎤🗺️📍]/g]: the pattern has no [u] flag, so the class
    holds the surrogate halves of its symbols one by one. *)
Definition symbolClass : list N :=
  [ 0xD83D; 0xDCCA; 0xD83D; 0xDE80; 0xD83D; 0xDCA1; 0xD83C; 0xDFAF;
    0x2B50; 0x2705; 0x274C; 0xD83D; 0xDD34; 0xD83C; 0xDFA4;
    0xD83D; 0xDDFA; 0xFE0F; 0xD83D; 0xDCCD ]%N.

Definition cleanText (t : jsstring) : jsstring :=
  filter (fun c => negb (existsb (N.eqb c) symbolClass)) t.

Definition speakResponse (voiceOutputEnabled_ : bool) (t : jsstring)
    (w : World) : World :=
  (* Stop any ongoing speech *)
  let w := speechSynthesis_cancel w in
  if negb voiceOutputEnabled_ then w
  else
    let utterance :=
      {| text := cleanText t; rate := 1.1%Q; pitch := 1%Q; volume := 1%Q |} in
    speechSynthesis_speak utterance w.

Definition apology : jsstring :=
  js "Sorry, I'm having trouble connecting right now. Please try again in a moment.".

(** [handleSendMessage] up to its await.  [arg] is the argument of the
    call ([None] when it is called without one), [now] is [Date.now()]
    and [date] is [new Date()].  The callback is made again whenever
    [inputMessage], [isLoading] or [earnerId] changes, so these three are
    the ones of the page; [speakResponse] is the one of the render that
    made the callback. *)
Definition handleSendMessage (arg : option jsstring) (now date : Z)
    (w : World) : World :=
  let msg := match arg with Some m => m | None => inputMessage (page w) end in
  if negb (truthy (trim msg)) || isLoading (page w) then w
  else
    let messageText := trim msg in
    let timestamp_ := now in
    let userMessage :=
      {| id := timestamp_; type := user; content := messageText;
         timestamp := date; earnerInsights := None; isError := false |} in
    let w := setMessages (fun prev => prev ++ [userMessage]) w in
    let w := setInputMessage [] w in
    let w := setIsLoading true w in
    chatAPI_sendMessage messageText (earnerId (page w))
      {| k_timestamp := timestamp_;
         k_voiceOutputEnabled := memoVoiceOutputEnabled w |} w.

Local Open Scope eff_scope.

(** [handleSendMessage] from its await on. *)
Definition handleSendMessage_settled (k : Suspended) (t : Transport)
    (date : Z) : Eff unit :=
  tryCatchFinally
    (r <- chatAPI_sendMessage_settled t ;;
     let botMessage :=
       {| id := k_timestamp k + 1; (* Ensure unique ID *)
          type := bot; content := response r; timestamp := date;
          earnerInsights := earner_insights r; isError := false |} in
     perform (setMessages (fun prev => prev ++ [botMessage])) ;;
     (* Speak the response if voice output is enabled *)
     perform (speakResponse (k_voiceOutputEnabled k) (response r)))
    (fun _ =>
     let errorMessage :=
       {| id := k_timestamp k + 1; (* Ensure unique ID *)
          type := bot; content := apology; timestamp := date;
          earnerInsights := None; isError := true |} in
     perform (setMessages (fun prev => prev ++ [errorMessage])))
    (setIsLoading false).

Local Close Scope eff_scope.

Definition toggleVoiceInput (w : World) : World :=
  if negb (recognition (page w)) then w
  else if isListening (page w) then recognition_call Stop w
  else recognition_call Start (setInputMessage [] w).

Definition toggleVoiceOutput (w : World) : World :=
  let enabled := voiceOutputEnabled (page w) in
  let w := if isSpeaking (page w)
           then setIsSpeaking false (speechSynthesis_cancel w)
           else w in
  setVoiceOutputEnabled (negb enabled) w.

(** Not bound to any control of the page. *)
Definition stopSpeaking (w : World) : World :=
  setIsSpeaking false (speechSynthesis_cancel w).

(** *** The handlers of the recognition instance *)

Record SpeechRecognitionResult := {
  isFinal : bool;
  transcript : jsstring      (* of the first alternative *)
}.

Record SpeechRecognitionEvent := {
  resultIndex : nat;
  results : list SpeechRecognitionResult
}.

(** The loop of [onresult], from index [resultIndex] to the end. *)
Fixpoint finalTranscript (rs : list SpeechRecognitionResult) : jsstring :=
  match rs with
  | [] => []
  | r :: rs' =>
      if isFinal r then transcript r ++ finalTranscript rs'
      else finalTranscript rs'
  end.

Definition onresult (event : SpeechRecognitionEvent) (w : World) : World :=
  let final := finalTranscript (skipn (resultIndex event) (results event)) in
  if truthy final then setInputMessage final w else w.

Definition onstart : World -> World := setIsListening true.
Definition onerror (code : jsstring) : World -> World := setIsListening false.
Definition onend : World -> World := setIsListening false.

(** *** Events and renders *)

Inductive Event :=
| Change (value : jsstring)                    (* the textarea's onChange *)
| Send (arg : option jsstring) (now date : Z)  (* a call of handleSendMessage *)
| Settled (t : Transport) (date : Z)           (* the awaited request settles *)
| ToggleVoiceInput
| ToggleVoiceOutput
| Recognition_onstart
| Recognition_onresult (event : SpeechRecognitionEvent)
| Recognition_onerror (code : jsstring)
| Recognition_onend
| Utterance_onstart
| Utterance_onend
| Utterance_onerror.

(** The events of the engine reach the handlers of the utterance at the
    head of its queue. *)
Definition utteranceDone (w : World) : World :=
  match utterances w with
  | [] => w
  | _ :: _ => setIsSpeaking false (speechSynthesis_finish w)
  end.

Definition handle (e : Event) (w : World) : World :=
  match e with
  | Change value =>
      (* the textarea is disabled while listening *)
      if isListening (page w) then w else setInputMessage value w
  | Send arg now date => handleSendMessage arg now date w
  | Settled t date =>
      match awaiting w with
      | [] => w
      | k :: _ => snd (handleSendMessage_settled k t date (resumed w))
      end
  | ToggleVoiceInput =>
      (* the button is there when voice is supported, disabled while loading *)
      if voiceSupported (page w) && negb (isLoading (page w))
      then toggleVoiceInput w else w
  | ToggleVoiceOutput => toggleVoiceOutput w
  | Recognition_onstart => if recognition (page w) then onstart w else w
  | Recognition_onresult event =>
      if recognition (page w) then onresult event w else w
  | Recognition_onerror code =>
      if recognition (page w) then onerror code w else w
  | Recognition_onend => if recognition (page w) then onend w else w
  | Utterance_onstart =>
      match utterances w with
      | [] => w
      | _ :: _ => setIsSpeaking true w
      end
  | Utterance_onend => utteranceDone w
  | Utterance_onerror => utteranceDone w
  end.

(** The dependencies of [useCallback] for [handleSendMessage]. *)
Definition sameDeps (a b : ChatPage) : bool :=
  jsstring_eqb (inputMessage a) (inputMessage b)
  && Bool.eqb (isLoading a) (isLoading b)
  && jsstring_eqb (earnerId a) (earnerId b).

(** The render after an event: [handleSendMessage] is made again, with
    the [speakResponse] of this render, when a dependency has changed. *)
Definition render (before after : World) : World :=
  if sameDeps (page before) (page after) then after
  else setMemo (voiceOutputEnabled (page after)) after.

Definition step (w : World) (e : Event) : World := render w (handle e w).

Definition run (w : World) (es : list Event) : World := fold_left step es w.

Definition welcome : jsstring :=
  [0xD83D; 0xDE80]%N
  ++ js " Hey! I'm your personal AI Copilot! I know your profile and can help you with:"
  ++ [10; 10; 0x2022]%N ++ js " Your personalized earnings predictions"
  ++ [10; 0x2022]%N ++ js " Best times and locations for you"
  ++ [10; 0x2022]%N ++ js " Weather-aware recommendations for your area"
  ++ [10; 0x2022]%N ++ js " Multi-platform optimization (rides + eats)"
  ++ [10; 0x2022]%N ++ js " City-specific insights for your home base"
  ++ [10; 10]%N
  ++ js "What would you like to know about maximizing your earnings today?".

(** The first render; [supported] says whether the browser has a
    SpeechRecognition constructor, [date] is [new Date()]. *)
Definition mount (supported : bool) (date : Z) : World :=
  {| page :=
       {| messages :=
            [ {| id := 1; type := bot; content := welcome; timestamp := date;
                 earnerInsights := None; isError := false |} ];
          inputMessage := [];
          isLoading := false;
          earnerId := js "E10000";
          isListening := false;
          voiceSupported := supported;
          recognition := supported;
          isSpeaking := false;
          voiceOutputEnabled := true |};
     memoVoiceOutputEnabled := true;
     awaiting := [];
     network := [];
     synthesis := [];
     utterances := [];
     capture := [] |}.

Definition reachable (w : World) : Prop :=
  exists supported date es, w = run (mount supported date) es.

(** ** The [VoiceInput] component (components/ChatInterface.jsx) *)

Module VoiceInput.

(** The other half of the loop of [onresult]. *)
Fixpoint interimTranscript (rs : list SpeechRecognitionResult) : jsstring :=
  match rs with
  | [] => []
  | r :: rs' =>
      if isFinal r then interimTranscript rs'
      else transcript r ++ interimTranscript rs'
  end.

Inductive Callback :=
| onTranscript (t : jsstring)
| onError (errorMessage : jsstring).

Record State := {
  isListening : bool;
  transcript : jsstring;
  recognition : bool;
  calls : list RecognitionCall;     (* made on the recognition instance *)
  reported : list Callback          (* made on the two props *)
}.

Definition setIsListening (v : bool) (s : State) : State :=
  {| isListening := v; transcript := transcript s;
     recognition := recognition s; calls := calls s;
     reported := reported s |}.

Definition setTranscript (v : jsstring) (s : State) : State :=
  {| isListening := isListening s; transcript := v;
     recognition := recognition s; calls := calls s;
     reported := reported s |}.

Definition call (c : RecognitionCall) (s : State) : State :=
  {| isListening := isListening s; transcript := transcript s;
     recognition := recognition s; calls := calls s ++ [c];
     reported := reported s |}.

Definition report (c : Callback) (s : State) : State :=
  {| isListening := isListening s; transcript := transcript s;
     recognition := recognition s; calls := calls s;
     reported := reported s ++ [c] |}.

Definition onresult (event : SpeechRecognitionEvent) (s : State) : State :=
  let rs := skipn (resultIndex event) (results event) in
  let interim := interimTranscript rs in
  let final := finalTranscript rs in
  let s := setTranscript (if truthy final then final else interim) s in
  if truthy final then report (onTranscript final) s else s.

(** The switch of [onerror]. *)
Definition errorMessage (error : jsstring) : jsstring :=
  if jsstring_eqb error (js "no-speech")
  then js "No speech detected. Please try again."
  else if jsstring_eqb error (js "audio-capture")
  then js "No microphone found. Please check your device."
  else if jsstring_eqb error (js "not-allowed")
  then js "Microphone permission denied. Please enable it in browser settings."
  else js "Speech recognition error: " ++ error.

Definition onerror (error : jsstring) (s : State) : State :=
  report (onError (errorMessage error)) (setIsListening false s).

Definition onstart : State -> State := setIsListening true.
Definition onend : State -> State := setIsListening false.

Definition toggleListening (s : State) : State :=
  if negb (recognition s) then s
  else if isListening s then setIsListening false (call Stop s)
  else call Start (setTranscript [] s).

End VoiceInput.

(** ** The vocabulary of the properties *)

(** The text a call of [handleSendMessage] sends: its argument, or the
    composed buffer when it has none. *)
Definition composed (arg : option jsstring) (w : World) : jsstring :=
  match arg with Some m => m | None => inputMessage (page w) end.

Definition userMessage (arg : option jsstring) (now date : Z) (w : World) :
    Message :=
  {| id := now; type := user; content := trim (composed arg w);
     timestamp := date; earnerInsights := None; isError := false |}.

Definition request (arg : option jsstring) (w : World) : Request :=
  {| message := trim (composed arg w); earner_id := earnerId (page w);
     conversation_history := [] |}.

(** While nothing is loading no call is suspended, and at most one ever
    is; listening needs a recognition instance. *)
Definition invariant (w : World) : Prop :=
  (isLoading (page w) = false -> awaiting w = [])
  /\ (List.length (awaiting w) <= 1)%nat
  /\ (recognition (page w) = false -> isListening (page w) = false).

(** The request has failed: there was no answer, none in time, or one
    whose status is not a 2xx. *)
Definition failed (t : Transport) : bool :=
  match t with
  | Answered status _ => (status <? 200) || (300 <=? status)
  | NetworkError => true
  | TimedOut => true
  end.

Definition errorMessage (now date : Z) : Message :=
  {| id := now + 1; type := bot; content := apology; timestamp := date;
     earnerInsights := None; isError := true |}.

Definition botMessage (now date : Z) (r : ResponseData) : Message :=
  {| id := now + 1; type := bot; content := response r; timestamp := date;
     earnerInsights := earner_insights r; isError := false |}.

Definition utterance (t : jsstring) : Utterance :=
  {| text := cleanText t; rate := 1.1%Q; pitch := 1%Q; volume := 1%Q |}.

(** The session as the specification words it, to be compared with
    [onresult] and [onend]: a segment that is not final overwrites
    [interimText], a final one is appended to [pendingFinalText], and the
    end of capture commits [pendingFinalText] or, when that is empty,
    [interimText]. *)
Module Specified.





End Specified.

(** A listening period: the microphone button, the start of the engine,
    its results, its end. *)
Definition listening (events : list SpeechRecognitionEvent) : list Event :=
  [ToggleVoiceInput; Recognition_onstart]
  ++ map Recognition_onresult events ++ [Recognition_onend].

Definition interim (t : string) : SpeechRecognitionEvent :=
  {| resultIndex := 0;
     results := [ {| isFinal := false; transcript := js t |} ] |}.

Definition final (t : string) : SpeechRecognitionEvent :=
  {| resultIndex := 0;
     results := [ {| isFinal := true; transcript := js t |} ] |}.

(** The final text of one result event. *)
Definition finalOf (event : SpeechRecognitionEvent) : jsstring :=
  finalTranscript (skipn (resultIndex event) (results event)).

Definition settles (e : Event) : bool :=
  match e with
  | Settled _ _ => true
  | _ => false
  end.

Definition starts (e : Event) : bool :=
  match e with
  | Recognition_onstart => true
  | _ => false
  end.



(** The clock readings of the calls of [handleSendMessage] in a trace:
    each is more than 1 above the one before, and the first is above
    [hi]. *)
Fixpoint spaced (hi : Z) (es : list Event) : Prop :=
  match es with
  | [] => True
  | Send _ now _ :: es' => hi < now /\ spaced (now + 1) es'
  | _ :: es' => spaced hi es'
  end.

(** The ids of the log increase, none is above [hi], and the reply of a
    suspended call will be above them all. *)
Definition idsBelow (hi : Z) (w : World) : Prop :=
  let ids := map id (messages (page w)) in
  StronglySorted Z.lt ids
  /\ Forall (fun i => i <= hi) ids
  /\ Forall (fun k => k_timestamp k + 1 <= hi
                      /\ Forall (fun i => i < k_timestamp k + 1) ids)
       (awaiting w).

(** ** The [ChatInterface] component (components/ChatInterface.jsx) *)

Module ChatInterface.

(** [text] is [None] for [undefined], which the text of a reply can be. *)
Record Message := {
  id : Z;
  text : option jsstring;
  sender : Sender;
  timestamp : Z
}.

Record State := {
  messages : list Message;
  inputValue : jsstring;
  isLoading : bool;
  error : jsstring
}.

(** The body of [axios.post('http://localhost:5000/api/chat/message', ...)]. *)
Record Body := {
  message : jsstring;
  lastMessages : list Message
}.

(** The fields of [response.data] that are read. *)
Record Data := {
  data_response : option jsstring;
  data_message : option jsstring
}.

Inductive Reply :=
| Answered (status : Z) (data : Data)
| NoAnswer.

(** What the await of [sendMessage] keeps: [messages] is the array of
    the render that made the running [sendMessage], and only its length
    is read afterwards. *)
Record Suspended := {
  k_length : nat
}.

Record World := {
  ui : State;
  awaiting : list Suspended;
  network : list Body
}.

Definition onState (f : State -> State) (w : World) : World :=
  {| ui := f (ui w); awaiting := awaiting w; network := network w |}.

Definition setMessages (f : list Message -> list Message) : World -> World :=
  onState (fun s =>
    {| messages := f (messages s); inputValue := inputValue s;
       isLoading := isLoading s; error := error s |}).

Definition setInputValue (v : jsstring) : World -> World :=
  onState (fun s =>
    {| messages := messages s; inputValue := v;
       isLoading := isLoading s; error := error s |}).

Definition setIsLoading (v : bool) : World -> World :=
  onState (fun s =>
    {| messages := messages s; inputValue := inputValue s;
       isLoading := v; error := error s |}).

Definition setError (v : jsstring) : World -> World :=
  onState (fun s =>
    {| messages := messages s; inputValue := inputValue s;
       isLoading := isLoading s; error := v |}).

Definition axios_post (body : Body) (k : Suspended) (w : World) : World :=
  {| ui := ui w; awaiting := awaiting w ++ [k]; network := network w ++ [body] |}.

Definition resumed (w : World) : World :=
  {| ui := ui w; awaiting := tl (awaiting w); network := network w |}.

(** [messages.slice(-5)] *)
Definition slice_5 (l : list Message) : list Message :=
  skipn (List.length l - 5) l.

(** [a || b] on two strings that may be undefined. *)
Definition orElse (a b : option jsstring) : option jsstring :=
  match a with
  | Some s => if truthy s then a else b
  | None => b
  end.

(** [sendMessage] up to its await; [date] is [new Date()]. *)
Definition sendMessage (t : jsstring) (date : Z) (w : World) : World :=
  if negb (truthy (trim t)) then w
  else
    let snapshot := messages (ui w) in
    let userMessage :=
      {| id := Z.of_nat (List.length snapshot) + 1; text := Some (trim t);
         sender := user; timestamp := date |} in
    let w := setMessages (fun prev => prev ++ [userMessage]) w in
    let w := setInputValue [] w in
    let w := setIsLoading true w in
    axios_post {| message := trim t; lastMessages := slice_5 snapshot |}
      {| k_length := List.length snapshot |} w.

(** The promise of [axios.post]: resolved for a status from 200 to 299. *)
Definition resolved (r : Reply) : option Data :=
  match r with
  | Answered status data =>
      if (200 <=? status) && (status <? 300) then Some data else None
  | NoAnswer => None
  end.

(** [sendMessage] from its await on: the try, the catch and the finally. *)
Definition sendMessage_settled (k : Suspended) (r : Reply) (date : Z)
    (w : World) : World :=
  let w :=
    match resolved r with
    | Some data =>
        let botMessage :=
          {| id := Z.of_nat (k_length k) + 2;
             text := orElse (data_response data) (data_message data);
             sender := bot; timestamp := date |} in
        setMessages (fun prev => prev ++ [botMessage]) w
    | None =>
        let w := setError (js "Failed to get response. Please try again.") w in
        let errorMessage :=
          {| id := Z.of_nat (k_length k) + 2;
             text := Some (js "Sorry, I'm having trouble responding right now. Please try again in a moment.");
             sender := bot; timestamp := date |} in
        setMessages (fun prev => prev ++ [errorMessage]) w
    end in
  setIsLoading false w.

Definition handleVoiceTranscript (t : jsstring) : World -> World :=
  setInputValue t.

Definition handleVoiceError (errorMessage : jsstring) : World -> World :=
  setError errorMessage.

Inductive Event :=
| Change (value : jsstring)            (* the text field's onChange *)
| Submit (date : Z)                    (* the form's onSubmit *)
| Settled (r : Reply) (date : Z)       (* the awaited request settles *)
| Heard (c : VoiceInput.Callback)      (* a call of a prop of VoiceInput *)
| CloseError.                          (* the snackbar's onClose *)

(** The text field and the submit button are disabled while loading, so
    the form is not submitted then. *)
Definition handle (e : Event) (w : World) : World :=
  match e with
  | Change value => if isLoading (ui w) then w else setInputValue value w
  | Submit date =>
      if isLoading (ui w) then w else sendMessage (inputValue (ui w)) date w
  | Settled r date =>
      match awaiting w with
      | [] => w
      | k :: _ => sendMessage_settled k r date (resumed w)
      end
  | Heard (VoiceInput.onTranscript t) => handleVoiceTranscript t w
  | Heard (VoiceInput.onError m) => handleVoiceError m w
  | CloseError => setError [] w
  end.

Definition run (w : World) (es : list Event) : World := fold_left (fun w e => handle e w) es w.

Definition mount (date : Z) : World :=
  {| ui :=
       {| messages :=
            [ {| id := 1;
                 text := Some (js "Hi! I'm your Uber Copilot. Ask me anything about your earnings, when to take breaks, or how to maximize your income!");
                 sender := bot; timestamp := date |} ];
          inputValue := [];
          isLoading := false;
          error := [] |};
     awaiting := [];
     network := [] |}.

Definition reachable (w : World) : Prop :=
  exists date es, w = run (mount date) es.

End ChatInterface.

Module CI := ChatInterface.

(** ** The [EarningsPage] component (components/ChatInterface.jsx)

    The hours selector, the platform selector, the context field and the
    requests of [predictEarnings].  The prediction that is shown (numbers
    of the backend, or the fallback computed in floating point) is not
    modelled. *)

Module EarningsPage.

Inductive Platform := both | rides | eats | jobs.

Record State := {
  hours : Z;
  additionalContext : jsstring;
  selectedPlatform : Platform;
  loading : bool
}.

Inductive Request :=
| Predict (earner_id : jsstring) (hours : Z) (additional_context : jsstring)
| MultiPlatform (earnerId : jsstring) (hours : Z) (platform : Platform).

Record World := {
  ui : State;
  network : list Request
}.

Definition onState (f : State -> State) (w : World) : World :=
  {| ui := f (ui w); network := network w |}.

Definition setHours (v : Z) : World -> World :=
  onState (fun s =>
    {| hours := v; additionalContext := additionalContext s;
       selectedPlatform := selectedPlatform s; loading := loading s |}).

Definition setAdditionalContext (v : jsstring) : World -> World :=
  onState (fun s =>
    {| hours := hours s; additionalContext := v;
       selectedPlatform := selectedPlatform s; loading := loading s |}).

Definition setSelectedPlatform (v : Platform) : World -> World :=
  onState (fun s =>
    {| hours := hours s; additionalContext := additionalContext s;
       selectedPlatform := v; loading := loading s |}).

Definition setLoading (v : bool) : World -> World :=
  onState (fun s =>
    {| hours := hours s; additionalContext := additionalContext s;
       selectedPlatform := selectedPlatform s; loading := v |}).

Definition earnerId : jsstring := js "E10000".

(** [predictEarnings] up to its await: the two requests of
    [Promise.all] leave. *)
Definition predictEarnings (w : World) : World :=
  let s := ui w in
  let w := setLoading true w in
  {| ui := ui w;
     network :=
       network w
       ++ [ Predict earnerId (hours s) (additionalContext s);
            MultiPlatform earnerId (hours s) (selectedPlatform s) ] |}.

Inductive Event :=
| Minus                               (* the button [-] *)
| Plus                                (* the button [+] *)
| SelectPlatform (id : Platform)
| ChangeContext (value : jsstring)
| Update                              (* the button Update Prediction *)
| Settled.                            (* the [finally] of predictEarnings *)

Definition handle (e : Event) (w : World) : World :=
  match e with
  | Minus => setHours (Z.max 1 (hours (ui w) - 1)) w
  | Plus => setHours (Z.min 24 (hours (ui w) + 1)) w
  | SelectPlatform id => setSelectedPlatform id w
  | ChangeContext value => setAdditionalContext value w
  | Update => predictEarnings w
  | Settled => setLoading false w
  end.

(** The effect on [hours]: after a render in which [hours] has changed,
    [predictEarnings] runs. *)
Definition step (w : World) (e : Event) : World :=
  let w' := handle e w in
  if hours (ui w') =? hours (ui w) then w' else predictEarnings w'.

Definition run (w : World) (es : list Event) : World := fold_left step es w.

(** The first render and its effect. *)
Definition mount : World :=
  predictEarnings
    {| ui := {| hours := 8; additionalContext := [];
                selectedPlatform := both; loading := false |};
       network := [] |}.

Definition reachable (w : World) : Prop := exists es, w = run mount es.

Definition hoursOf (r : Request) : Z :=
  match r with
  | Predict _ h _ => h
  | MultiPlatform _ h _ => h
  end.

End EarningsPage.

Module EP := EarningsPage.

(** ** [apiUtils] (services/api.js) *)

Module ApiUtils.

(** The fields of an error that are read.  [detail] is [None] when
    [response.data] or its [detail] is missing. *)
Record Response := {
  status : option Z;
  detail : option jsstring
}.

Record ErrorObject := {
  response : option Response;
  request : bool;                 (* [error.request] is truthy *)
  message : option jsstring
}.

(** The three returns of [formatError]: [error.response?.data?.detail]
    when it is truthy, else [error.message] when it is truthy, else the
    fixed text. *)
Definition formatError (error : ErrorObject) : jsstring :=
  let fixed := js "An unexpected error occurred. Please try again." in
  let viaMessage :=
    match message error with
    | Some m => if truthy m then m else fixed
    | None => fixed
    end in
  match response error with
  | Some r =>
      match detail r with
      | Some d => if truthy d then d else viaMessage
      | None => viaMessage
      end
  | None => viaMessage
  end.

(** The truth value of [!error.response && error.request]. *)
Definition isNetworkError (error : ErrorObject) : bool :=
  match response error with
  | Some _ => false
  | None => request error
  end.

(** [error.response?.status >= 500]; a comparison with [undefined] is
    false. *)
Definition isServerError (error : ErrorObject) : bool :=
  match response error with
  | Some {| status := Some n |} => 500 <=? n
  | _ => false
  end.

Definition isClientError (error : ErrorObject) : bool :=
  match response error with
  | Some {| status := Some n |} => (400 <=? n) && (n <? 500)
  | _ => false
  end.

(** The object [new Error(msg)]: a message, no [response], no [request]. *)
Definition newError (msg : jsstring) : ErrorObject :=
  {| response := None; request := false; message := Some msg |}.

(** The object a [catch] receives for an exception. *)
Definition caught (e : Exception) : option ErrorObject :=
  match e with
  | Error msg => Some (newError msg)
  | AxiosError _ => None
  end.

End ApiUtils.

(** ** More vocabulary *)





(** Every [Speak] of a log of calls comes right after a [Cancel];
    [cancelled] says whether the call before the log was one. *)
Fixpoint cancelsFirst (cancelled : bool) (l : list SynthesisCall) : bool :=
  match l with
  | [] => true
  | Cancel :: l' => cancelsFirst true l'
  | Speak _ :: l' => cancelled && cancelsFirst false l'
  end.

(** The events of voice input: the microphone button and the handlers
    of the recognition instance. *)
Definition voiceInput (e : Event) : bool :=
  match e with
  | ToggleVoiceInput | Recognition_onstart | Recognition_onresult _
  | Recognition_onerror _ | Recognition_onend => true
  | _ => false
  end.

Definition inClass (c : N) : bool := existsb (N.eqb c) symbolClass.

(** The final texts of a run of result events, in order. *)
Definition finals (events : list SpeechRecognitionEvent) : list jsstring :=
  filter truthy (map finalOf events).


(** The id of every message of [l] is its place in [l], counted from 1. *)
Definition positioned (l : list ChatInterface.Message) : Prop :=
  forall i m, nth_error l i = Some m -> ChatInterface.id m = Z.of_nat i + 1.

(** The results of a recognition session reach [VoiceInput] one by one. *)
Definition heard (events : list SpeechRecognitionEvent)
    (s : VoiceInput.State) : VoiceInput.State :=
  fold_left (fun s e => VoiceInput.onresult e s) events s.

(** * Properties *)

(** ** Strings *)

Lemma jsstring_eqb_refl (s : jsstring) : jsstring_eqb s s = true.
Proof. unfold jsstring_eqb. destruct (list_eq_dec N.eq_dec s s); congruence. Qed.

Lemma jsstring_eqb_eq (a b : jsstring) : jsstring_eqb a b = true <-> a = b.
Proof.
  unfold jsstring_eqb. destruct (list_eq_dec N.eq_dec a b); split; congruence.
Qed.

Lemma trimStart_shape (s : jsstring) :
  trimStart s = [] \/
  exists c t, trimStart s = c :: t /\ isWhiteSpace c = false.
Proof.
  induction s as [|c s IH]; simpl; [now left|].
  destruct (isWhiteSpace c) eqn:E; [exact IH|].
  right. now exists c, s.
Qed.

Lemma trimStart_nil (s : jsstring) :
  trimStart s = [] <-> forallb isWhiteSpace s = true.
Proof.
  induction s as [|c s IH]; simpl; [tauto|].
  destruct (isWhiteSpace c); simpl; [exact IH|].
  split; discriminate.
Qed.

Lemma forallb_rev {A} (f : A -> bool) (l : list A) :
  forallb f (rev l) = forallb f l.
Proof.
  apply eq_true_iff_eq. rewrite !forallb_forall.
  split; intros H x Hx; apply H; [now apply in_rev in Hx | now apply in_rev].
Qed.

(** [trim] leaves nothing exactly of the strings that are empty or hold
    white space only. *)
Lemma trim_nil (s : jsstring) :
  trim s = [] <-> forallb isWhiteSpace s = true.
Proof.
  unfold trim. rewrite <- trimStart_nil. split.
  - intros H. apply (f_equal (@rev N)) in H. rewrite rev_involutive in H.
    simpl in H. apply trimStart_nil in H. rewrite forallb_rev in H.
    destruct (trimStart_shape s) as [E | (c & t & E & Hc)]; [exact E|].
    rewrite E in H. simpl in H. rewrite Hc in H. discriminate.
  - intros H. now rewrite H.
Qed.

Lemma truthy_trim (s : jsstring) :
  truthy (trim s) = negb (forallb isWhiteSpace s).
Proof.
  destruct (forallb isWhiteSpace s) eqn:E.
  - apply trim_nil in E. now rewrite E.
  - destruct (trim s) eqn:T; [|reflexivity].
    apply trim_nil in T. congruence.
Qed.

(** ** Renders *)

Lemma sameDeps_refl (p : ChatPage) : sameDeps p p = true.
Proof.
  unfold sameDeps. rewrite !jsstring_eqb_refl, Bool.eqb_reflx. reflexivity.
Qed.

Lemma render_same (w : World) : render w w = w.
Proof. unfold render. now rewrite sameDeps_refl. Qed.

Lemma render_page (a b : World) : page (render a b) = page b.
Proof. unfold render. now destruct (sameDeps _ _). Qed.

Lemma render_network (a b : World) : network (render a b) = network b.
Proof. unfold render. now destruct (sameDeps _ _). Qed.

Lemma render_awaiting (a b : World) : awaiting (render a b) = awaiting b.
Proof. unfold render. now destruct (sameDeps _ _). Qed.

Lemma render_synthesis (a b : World) : synthesis (render a b) = synthesis b.
Proof. unfold render. now destruct (sameDeps _ _). Qed.

Lemma render_utterances (a b : World) : utterances (render a b) = utterances b.
Proof. unfold render. now destruct (sameDeps _ _). Qed.

Lemma render_capture (a b : World) : capture (render a b) = capture b.
Proof. unfold render. now destruct (sameDeps _ _). Qed.

Lemma run_app (w : World) (es es' : list Event) :
  run w (es ++ es') = run (run w es) es'.
Proof. unfold run. apply fold_left_app. Qed.

Lemma run_cons (w : World) (e : Event) (es : list Event) :
  run w (e :: es) = run (step w e) es.
Proof. reflexivity. Qed.

(** ** The send gate *)

Lemma handleSendMessage_rejected (w : World) arg now date :
  forallb isWhiteSpace (composed arg w) = true \/ isLoading (page w) = true ->
  handleSendMessage arg now date w = w.
Proof.
  intros H. unfold handleSendMessage. fold (composed arg w).
  rewrite truthy_trim.
  destruct H as [H | H]; rewrite H; simpl; [reflexivity|].
  now rewrite orb_true_r.
Qed.

Lemma handleSendMessage_accepted (w : World) arg now date :
  forallb isWhiteSpace (composed arg w) = false ->
  isLoading (page w) = false ->
  let w1 := handleSendMessage arg now date w in
  messages (page w1) = messages (page w) ++ [userMessage arg now date w]
  /\ inputMessage (page w1) = []
  /\ isLoading (page w1) = true
  /\ network w1 = network w ++ [request arg w]
  /\ awaiting w1 =
       awaiting w ++ [ {| k_timestamp := now;
                          k_voiceOutputEnabled := memoVoiceOutputEnabled w |} ]
  /\ synthesis w1 = synthesis w
  /\ utterances w1 = utterances w
  /\ capture w1 = capture w
  /\ voiceOutputEnabled (page w1) = voiceOutputEnabled (page w)
  /\ isListening (page w1) = isListening (page w)
  /\ isSpeaking (page w1) = isSpeaking (page w)
  /\ earnerId (page w1) = earnerId (page w).
Proof.
  intros Hb Hl. unfold handleSendMessage. fold (composed arg w).
  rewrite truthy_trim, Hb, Hl. simpl. repeat split; reflexivity.
Qed.

(** C1. A call of [handleSendMessage] whose text is empty or holds white
    space only, or that is made while [isLoading] is true, changes
    nothing: no message is added, no request leaves, the composed buffer
    and [isLoading] are as before.  So of two calls in a row, the first
    of them accepted, only the first sends a request and adds a user
    message. *)
Theorem send_gate
    (w : World) (arg : option jsstring) (now date : Z)
    (w' : World) (arg' : option jsstring) (now' date' : Z)
    (Hrejected : forallb isWhiteSpace (composed arg w) = true
                 \/ isLoading (page w) = true)
    (Hnonblank : forallb isWhiteSpace (composed arg' w') = false)
    (Hidle : isLoading (page w') = false) :
  step w (Send arg now date) = w
  /\ let w1 := step w' (Send arg' now' date') in
     forall arg2 now2 date2,
       let w2 := step w1 (Send arg2 now2 date2) in
       w2 = w1
       /\ network w2 = network w' ++ [request arg' w']
       /\ messages (page w2) =
            messages (page w') ++ [userMessage arg' now' date' w']
       /\ isLoading (page w2) = true.
Proof.
  split.
  - unfold step. simpl. rewrite handleSendMessage_rejected by exact Hrejected.
    apply render_same.
  - intros w1 arg2 now2 date2 w2.
    destruct (handleSendMessage_accepted w' arg' now' date' Hnonblank Hidle)
      as (Hm & _ & Hl & Hn & _).
    assert (Hl1 : isLoading (page w1) = true).
    { unfold w1, step. rewrite render_page. exact Hl. }
    assert (E : w2 = w1).
    { unfold w2, step. simpl.
      rewrite handleSendMessage_rejected by (right; exact Hl1).
      apply render_same. }
    rewrite E. repeat split; trivial.
    + unfold w1, step. rewrite render_network. exact Hn.
    + unfold w1, step. rewrite render_page. exact Hm.
Qed.

Lemma send_gate_witness :
  let w := mount true 0 in
  let q := js "When are the peak hours in my city?" in
  step w (Send (Some (js "   ")) 1700000000000 5) = w
  /\ forall arg2 now2 date2,
       let w1 := step w (Send (Some q) 1700000000000 5) in
       let w2 := step w1 (Send arg2 now2 date2) in
       w2 = w1
       /\ network w2 = network w ++ [request (Some q) w]
       /\ messages (page w2) =
            messages (page w) ++ [userMessage (Some q) 1700000000000 5 w]
       /\ isLoading (page w2) = true.
Proof.
  intros w q.
  pose proof (send_gate w (Some (js "   ")) 1700000000000 5
                w (Some q) 1700000000000 5) as H.
  destruct H as [H1 H2].
  - left. reflexivity.
  - reflexivity.
  - reflexivity.
  - split; [exact H1 | exact H2].
Defined.

(** ** One request at a time *)

Lemma invariant_mount (supported : bool) (date : Z) :
  invariant (mount supported date).
Proof. repeat split; simpl; auto; congruence. Qed.

Lemma settled_page (k : Suspended) (t : Transport) (date : Z) (w : World) :
  let w' := snd (handleSendMessage_settled k t date w) in
  isLoading (page w') = false
  /\ awaiting w' = awaiting w
  /\ recognition (page w') = recognition (page w)
  /\ isListening (page w') = isListening (page w)
  /\ capture w' = capture w
  /\ network w' = network w.
Proof.
  unfold handleSendMessage_settled, tryCatchFinally, tryCatch, bind,
    chatAPI_sendMessage_settled, tryCatch, api_post_settled, perform, throw, ret.
  destruct t as [status data| |]; simpl;
    try destruct ((200 <=? status) && (status <? 300)); simpl;
    unfold speakResponse; try destruct (k_voiceOutputEnabled k); simpl;
    repeat split; reflexivity.
Qed.

Ltac invariant_done :=
  unfold invariant in *; simpl in *; intuition (try congruence; try lia).

Lemma invariant_handle (w : World) (e : Event) :
  invariant w -> invariant (handle e w).
Proof.
  intros H.
  destruct e; simpl.
  - destruct (isListening (page w)) eqn:E; invariant_done.
  - unfold handleSendMessage.
    destruct (negb (truthy (trim _)) || isLoading (page w)) eqn:G;
      [exact H|].
    apply orb_false_iff in G. destruct G as [_ G].
    destruct H as (H1 & H2 & H3).
    repeat split; simpl; auto; try congruence.
    rewrite (H1 G). simpl. lia.
  - destruct (awaiting w) as [|k ks] eqn:A; [exact H|].
    destruct (settled_page k t date (resumed w)) as (L & Aw & R & Li & _).
    destruct H as (H1 & H2 & H3). rewrite A in H2.
    simpl in H2. assert (ks = []) by (destruct ks; simpl in *; [auto|lia]).
    subst ks. repeat split.
    + intros _. rewrite Aw. simpl. now rewrite A.
    + rewrite Aw. simpl. rewrite A. simpl. lia.
    + rewrite R, Li. exact H3.
  - destruct (voiceSupported (page w) && negb (isLoading (page w)));
      [|exact H].
    unfold toggleVoiceInput.
    destruct (recognition (page w)) eqn:R; simpl; [|exact H].
    destruct (isListening (page w)) eqn:Li; invariant_done.
  - unfold toggleVoiceOutput.
    destruct (isSpeaking (page w)); invariant_done.
  - destruct (recognition (page w)) eqn:R; invariant_done.
  - destruct (recognition (page w)) eqn:R; [|exact H].
    unfold onresult. destruct (truthy _); invariant_done.
  - destruct (recognition (page w)) eqn:R; invariant_done.
  - destruct (recognition (page w)) eqn:R; invariant_done.
  - destruct (utterances w); invariant_done.
  - unfold utteranceDone. destruct (utterances w); invariant_done.
  - unfold utteranceDone. destruct (utterances w); invariant_done.
Qed.

Lemma invariant_render (a b : World) : invariant b -> invariant (render a b).
Proof.
  unfold invariant. now rewrite render_page, render_awaiting.
Qed.

Lemma invariant_step (w : World) (e : Event) :
  invariant w -> invariant (step w e).
Proof. intros H. apply invariant_render, invariant_handle, H. Qed.

Lemma invariant_run (es : list Event) (w : World) :
  invariant w -> invariant (run w es).
Proof.
  revert w. induction es as [|e es IH]; intros w H; [exact H|].
  rewrite run_cons. apply IH, invariant_step, H.
Qed.

Lemma reachable_invariant (w : World) : reachable w -> invariant w.
Proof.
  intros (supported & date & es & ->). apply invariant_run, invariant_mount.
Qed.

Lemma reachable_mount (supported : bool) (date : Z) :
  reachable (mount supported date).
Proof. now exists supported, date, []. Qed.

Lemma reachable_step (w : World) (e : Event) :
  reachable w -> reachable (step w e).
Proof.
  intros (supported & date & es & ->). exists supported, date, (es ++ [e]).
  now rewrite run_app.
Qed.

(** ** A request that fails *)

Lemma chatAPI_sendMessage_failed (t : Transport) (w : World) :
  failed t = true ->
  chatAPI_sendMessage_settled t w
  = (Throw (Error (js "Failed to send message. Please try again.")), w).
Proof.
  intros F. unfold chatAPI_sendMessage_settled, tryCatch, api_post_settled.
  destruct t as [status data| |]; simpl in *; try reflexivity.
  replace ((200 <=? status) && (status <? 300)) with false; [reflexivity|].
  symmetry. apply andb_false_iff. apply orb_true_iff in F.
  destruct F as [F | F]; [left | right]; lia.
Qed.

Lemma chatAPI_sendMessage_answered (status : Z) (r : ResponseData) (w : World) :
  failed (Answered status r) = false ->
  chatAPI_sendMessage_settled (Answered status r) w = (Normal r, w).
Proof.
  intros F. unfold chatAPI_sendMessage_settled, tryCatch, api_post_settled.
  simpl in *. apply orb_false_iff in F. destruct F as [F1 F2].
  replace ((200 <=? status) && (status <? 300)) with true; [reflexivity|].
  symmetry. apply andb_true_iff. split; lia.
Qed.

Lemma handleSendMessage_settled_failed (k : Suspended) (t : Transport)
    (date : Z) (w : World) :
  failed t = true ->
  handleSendMessage_settled k t date w
  = (Normal tt,
     setIsLoading false
       (setMessages (fun prev => prev ++ [errorMessage (k_timestamp k) date]) w)).
Proof.
  intros F. unfold handleSendMessage_settled, tryCatchFinally, tryCatch, bind.
  rewrite (chatAPI_sendMessage_failed t w F). reflexivity.
Qed.

Lemma handleSendMessage_settled_answered (k : Suspended) (status : Z)
    (r : ResponseData) (date : Z) (w : World) :
  failed (Answered status r) = false ->
  handleSendMessage_settled k (Answered status r) date w
  = (Normal tt,
     setIsLoading false
       (speakResponse (k_voiceOutputEnabled k) (response r)
          (setMessages (fun prev => prev ++ [botMessage (k_timestamp k) date r])
             w))).
Proof.
  intros F. unfold handleSendMessage_settled, tryCatchFinally, tryCatch, bind.
  rewrite (chatAPI_sendMessage_answered status r w F). reflexivity.
Qed.

Lemma unchanged_log (w : World) (e : Event) :
  match e with
  | Send _ _ _ | Settled _ _ => True
  | _ => messages (page (handle e w)) = messages (page w)
         /\ awaiting (handle e w) = awaiting w
         /\ isLoading (page (handle e w)) = isLoading (page w)
         /\ network (handle e w) = network w
  end.
Proof.
  destruct e; simpl; trivial.
  - now destruct (isListening (page w)).
  - destruct (voiceSupported (page w) && negb (isLoading (page w)));
      [|now repeat split].
    unfold toggleVoiceInput.
    destruct (recognition (page w)); [|now repeat split].
    now destruct (isListening (page w)).
  - unfold toggleVoiceOutput. now destruct (isSpeaking (page w)).
  - now destruct (recognition (page w)).
  - destruct (recognition (page w)); [|now repeat split].
    unfold onresult. now destruct (truthy _).
  - now destruct (recognition (page w)).
  - now destruct (recognition (page w)).
  - now destruct (utterances w).
  - unfold utteranceDone. now destruct (utterances w).
  - unfold utteranceDone. now destruct (utterances w).
Qed.

(** While a request is awaited, nothing but its settling touches the
    log, the suspended call, [isLoading] or the network. *)
Lemma waiting_step (w : World) (e : Event) :
  isLoading (page w) = true ->
  settles e = false ->
  let w' := step w e in
  messages (page w') = messages (page w)
  /\ awaiting w' = awaiting w
  /\ isLoading (page w') = true
  /\ network w' = network w.
Proof.
  intros L S. unfold step.
  rewrite render_page, render_awaiting, render_network.
  pose proof (unchanged_log w e) as U.
  destruct e; try discriminate;
    try (destruct U as (U1 & U2 & U3 & U4);
         repeat split; congruence).
  simpl. rewrite handleSendMessage_rejected by (right; exact L).
  repeat split; trivial.
Qed.

Lemma waiting_run (es : list Event) (w : World) :
  isLoading (page w) = true ->
  forallb (fun e => negb (settles e)) es = true ->
  let w' := run w es in
  messages (page w') = messages (page w)
  /\ awaiting w' = awaiting w
  /\ isLoading (page w') = true
  /\ network w' = network w.
Proof.
  revert w. induction es as [|e es IH]; intros w L S; cbv zeta.
  - repeat split; trivial.
  - simpl in S. apply andb_true_iff in S. destruct S as [Se Ses].
    rewrite run_cons.
    destruct (waiting_step w e L) as (H1 & H2 & H3 & H4);
      [now destruct (settles e)|].
    destruct (IH (step w e) H3 Ses) as (J1 & J2 & J3 & J4).
    repeat split; congruence.
Qed.

(** C2. When the request of an accepted call fails (no answer, a status
    that is not 2xx, no answer in time), whatever else happens while it
    is awaited, the log has grown by exactly two messages, the user's and
    then one [isError] message of the bot with the fixed apology;
    [isLoading] is false again, the call completes without throwing,
    nothing is spoken for the failure, and the next call is accepted. *)
Theorem failed_send
    (w : World) (arg : option jsstring) (now date date' : Z) (t : Transport)
    (es : list Event)
    (Hreach : reachable w)
    (Hnonblank : forallb isWhiteSpace (composed arg w) = false)
    (Hidle : isLoading (page w) = false)
    (Hawaited : forallb (fun e => negb (settles e)) es = true)
    (Hfailed : failed t = true) :
  let w1 := run (step w (Send arg now date)) es in
  let w2 := step w1 (Settled t date') in
  messages (page w2)
  = messages (page w) ++ [userMessage arg now date w; errorMessage now date']
  /\ isError (errorMessage now date') = true
  /\ content (errorMessage now date')
     = js "Sorry, I'm having trouble connecting right now. Please try again in a moment."
  /\ isLoading (page w2) = false
  /\ (exists k, awaiting w1 = [k]
        /\ fst (handleSendMessage_settled k t date' (resumed w1)) = Normal tt)
  /\ awaiting w2 = []
  /\ network w2 = network w ++ [request arg w]
  /\ synthesis w2 = synthesis w1
  /\ forall arg2 now2 date2,
       forallb isWhiteSpace (composed arg2 w2) = false ->
       let w3 := step w2 (Send arg2 now2 date2) in
       messages (page w3)
       = messages (page w2) ++ [userMessage arg2 now2 date2 w2]
       /\ network w3 = network w2 ++ [request arg2 w2].
Proof.
  intros w1 w2.
  destruct (reachable_invariant w Hreach) as (Hinv & _).
  destruct (handleSendMessage_accepted w arg now date Hnonblank Hidle)
    as (Hm & _ & Hl & Hn & Ha & _).
  rewrite (Hinv Hidle) in Ha. simpl in Ha.
  set (k := {| k_timestamp := now;
               k_voiceOutputEnabled := memoVoiceOutputEnabled w |}) in *.
  destruct (waiting_run es (step w (Send arg now date))) as (Wm & Wa & Wl & Wn);
    [unfold step; rewrite render_page; exact Hl | exact Hawaited |].
  fold w1 in Wm, Wa, Wl, Wn.
  unfold step in Wm, Wa, Wn.
  rewrite render_page in Wm. rewrite render_awaiting in Wa.
  rewrite render_network in Wn.
  assert (Hm1 : messages (page w1)
            = messages (page w) ++ [userMessage arg now date w])
    by (rewrite Wm; exact Hm).
  assert (Ha1 : awaiting w1 = [k]) by (rewrite Wa; exact Ha).
  assert (E2 : w2 = render w1 (setIsLoading false (setMessages
                 (fun prev => prev ++ [errorMessage now date']) (resumed w1)))).
  { unfold w2, step. simpl. rewrite Ha1.
    rewrite handleSendMessage_settled_failed by exact Hfailed. reflexivity. }
  assert (Hm2 : messages (page w2)
    = messages (page w) ++ [userMessage arg now date w; errorMessage now date']).
  { rewrite E2, render_page.
    change (messages (page w1) ++ [errorMessage now date']
            = messages (page w)
              ++ [userMessage arg now date w; errorMessage now date']).
    rewrite Hm1, <- app_assoc. reflexivity. }
  assert (Hl2 : isLoading (page w2) = false).
  { rewrite E2, render_page. reflexivity. }
  repeat split; trivial.
  - exists k. split; [exact Ha1|].
    now rewrite handleSendMessage_settled_failed by exact Hfailed.
  - rewrite E2, render_awaiting. simpl. now rewrite Ha1.
  - rewrite E2, render_network. simpl. rewrite Wn. exact Hn.
  - rewrite E2, render_synthesis. reflexivity.
  - destruct (handleSendMessage_accepted w2 arg2 now2 date2 H Hl2)
      as (Hm3 & _). unfold step. rewrite render_page. exact Hm3.
  - destruct (handleSendMessage_accepted w2 arg2 now2 date2 H Hl2)
      as (_ & _ & _ & Hn3 & _). unfold step. rewrite render_network. exact Hn3.
Qed.

Lemma failed_send_witness :
  let w := mount true 0 in
  let q := Some (js "How can I optimize my current location?") in
  let t := Answered 500 {| response := []; earner_insights := None |} in
  let w2 := run w [Send q 1700000000000 1; ToggleVoiceOutput;
                   Send q 1700000000900 2; Settled t 3] in
  messages (page w2)
  = messages (page w)
    ++ [userMessage q 1700000000000 1 w; errorMessage 1700000000000 3]
  /\ isLoading (page w2) = false.
Proof.
  intros w q t w2.
  destruct (failed_send w q 1700000000000 1 3 t
              [ToggleVoiceOutput; Send q 1700000000900 2])
    as (H1 & _ & _ & H2 & _).
  - apply reachable_mount.
  - reflexivity.
  - reflexivity.
  - reflexivity.
  - reflexivity.
  - split; [exact H1 | exact H2].
Defined.

(** ** Speaking the reply *)

(** What the code does with an answer: the reply is added and
    [speakResponse] is called on its content; the engine is cancelled,
    and it is given the reply when the render that made the running
    callback had voice output enabled. *)
Lemma reply_spoken
    (w : World) (arg : option jsstring) (now date date' : Z)
    (status : Z) (r : ResponseData) :
  reachable w ->
  forallb isWhiteSpace (composed arg w) = false ->
  isLoading (page w) = false ->
  failed (Answered status r) = false ->
  let w2 := run w [Send arg now date; Settled (Answered status r) date'] in
  messages (page w2)
  = messages (page w) ++ [userMessage arg now date w; botMessage now date' r]
  /\ synthesis w2
     = synthesis w
       ++ Cancel :: (if memoVoiceOutputEnabled w
                     then [Speak (utterance (response r))] else []).
Proof.
  intros Hreach Hnonblank Hidle Hok w2.
  destruct (reachable_invariant w Hreach) as (Hinv & _).
  destruct (handleSendMessage_accepted w arg now date Hnonblank Hidle)
    as (Hm & _ & _ & _ & Ha & Hs & _).
  rewrite (Hinv Hidle) in Ha. simpl in Ha.
  set (w1 := step w (Send arg now date)).
  set (k := {| k_timestamp := now;
               k_voiceOutputEnabled := memoVoiceOutputEnabled w |}) in *.
  assert (Ha1 : awaiting w1 = [k]).
  { unfold w1, step. rewrite render_awaiting. exact Ha. }
  assert (Hm1 : messages (page w1)
            = messages (page w) ++ [userMessage arg now date w]).
  { unfold w1, step. rewrite render_page. exact Hm. }
  assert (Hs1 : synthesis w1 = synthesis w).
  { unfold w1, step. rewrite render_synthesis. exact Hs. }
  assert (E2 : w2 = render w1 (setIsLoading false
                 (speakResponse (k_voiceOutputEnabled k) (response r)
                    (setMessages (fun prev => prev ++ [botMessage now date' r])
                       (resumed w1))))).
  { unfold w2, run. simpl. fold w1. unfold step at 1. simpl. rewrite Ha1.
    rewrite handleSendMessage_settled_answered by exact Hok. reflexivity. }
  split.
  - rewrite E2, render_page. simpl. unfold speakResponse.
    destruct (memoVoiceOutputEnabled w); simpl;
      rewrite Hm1, <- app_assoc; reflexivity.
  - rewrite E2, render_synthesis. simpl. unfold speakResponse.
    destruct (memoVoiceOutputEnabled w); simpl; rewrite Hs1;
      [rewrite <- app_assoc|]; reflexivity.
Qed.

(** C3, at the input where the code departs from it.  Voice output is
    switched off on the fresh page and a quick question is sent: the
    callback is still the one of the first render, the reply is not an
    error, voice output is off, and the reply is handed to the engine.
    The other way round (off, a key typed, on again, send): voice output
    is on and the reply is not spoken. *)
Theorem reply_spoken_with_output_off :
  let q := js "When are the peak hours in my city?" in
  let r := {| response := js "Go online now"; earner_insights := None |} in
  let w := run (mount true 0)
             [ToggleVoiceOutput; Send (Some q) 1700000000000 1;
              Settled (Answered 200 r) 2] in
  let w' := run (mount true 0)
              [ToggleVoiceOutput; Change (js "h"); ToggleVoiceOutput;
               Send None 1700000000000 1; Settled (Answered 200 r) 2] in
  (voiceOutputEnabled (page w) = false
   /\ messages (page w)
      = messages (page (mount true 0))
        ++ [userMessage (Some q) 1700000000000 1 (mount true 0);
            botMessage 1700000000000 2 r]
   /\ synthesis w = [Cancel; Speak (utterance (js "Go online now"))]
   /\ utterances w = [utterance (js "Go online now")])
  /\ (voiceOutputEnabled (page w') = true
      /\ last (messages (page w')) (botMessage 0 0 r)
         = botMessage 1700000000000 2 r
      /\ synthesis w' = [Cancel]
      /\ utterances w' = []).
Proof. vm_compute. repeat split; reflexivity. Qed.


(** ** Message ids *)

(** C7, at an input where the code departs from it.  A first message is
    sent at clock reading 1700000000000 and its request fails; the next
    one is sent at reading 1700000000001.  The failure message of the
    first and the user message of the second have the same id. *)
Theorem duplicate_ids :
  let q := js "How can I optimize my current location?" in
  let w := run (mount true 0)
             [Send (Some q) 1700000000000 1; Settled NetworkError 2;
              Send (Some q) 1700000000001 3] in
  map id (messages (page w))
  = [1; 1700000000000; 1700000000001; 1700000000001]
  /\ map type (messages (page w)) = [bot; user; bot; user]
  /\ ~ NoDup (map id (messages (page w))).
Proof.
  vm_compute. repeat split; try reflexivity.
  intros H. inversion H as [|x l Hx Hl]; subst.
  inversion Hl as [|y l' Hy Hl']; subst.
  inversion Hl' as [|z l'' Hz _]; subst.
  apply Hz. now left.
Qed.

Lemma sorted_snoc (l : list Z) (x : Z) :
  StronglySorted Z.lt l -> Forall (fun i => i < x) l ->
  StronglySorted Z.lt (l ++ [x]).
Proof.
  induction 1 as [|a l Hl IH Ha]; intros F; simpl.
  - repeat constructor.
  - inversion F as [|? ? Fa Fl]; subst. constructor; [now apply IH|].
    apply Forall_app. split; [exact Ha | now repeat constructor].
Qed.

Lemma settled_messages (k : Suspended) (t : Transport) (date : Z) (w : World) :
  exists m, id m = k_timestamp k + 1
    /\ messages (page (snd (handleSendMessage_settled k t date w)))
       = messages (page w) ++ [m].
Proof.
  destruct (failed t) eqn:F.
  - rewrite handleSendMessage_settled_failed by exact F.
    now exists (errorMessage (k_timestamp k) date).
  - destruct t as [status r| |]; try discriminate.
    rewrite handleSendMessage_settled_answered by exact F.
    exists (botMessage (k_timestamp k) date r). split; [reflexivity|].
    unfold speakResponse. now destruct (k_voiceOutputEnabled k).
Qed.

Lemma idsBelow_mono (hi hi' : Z) (w : World) :
  hi <= hi' -> idsBelow hi w -> idsBelow hi' w.
Proof.
  intros L (S & B & K). repeat split; [exact S | |].
  - eapply Forall_impl; [|exact B]. simpl. intros; lia.
  - eapply Forall_impl; [|exact K]. simpl. intros k [H1 H2].
    split; [lia | exact H2].
Qed.

Lemma idsBelow_step (hi : Z) (w : World) (e : Event) :
  invariant w -> idsBelow hi w ->
  match e with
  | Send _ now _ => hi < now -> idsBelow (now + 1) (step w e)
  | _ => idsBelow hi (step w e)
  end.
Proof.
  intros (I1 & I2 & _) H.
  assert (R : forall v, idsBelow v (handle e w) -> idsBelow v (step w e)).
  { intros v. unfold idsBelow, step. now rewrite render_page, render_awaiting. }
  pose proof (unchanged_log w e) as U.
  destruct e; try (apply R; unfold idsBelow;
                   rewrite (proj1 U), (proj1 (proj2 U)); exact H).
  - (* Send *)
    intros Hnow. apply R. simpl. unfold handleSendMessage.
    destruct (negb (truthy (trim _)) || isLoading (page w)) eqn:G.
    + apply (idsBelow_mono hi); [lia | exact H].
    + apply orb_false_iff in G. destruct G as [_ G].
      destruct H as (S & B & _). unfold idsBelow. simpl.
      rewrite (I1 G), !map_app. simpl.
      assert (Blt : Forall (fun i => i < now) (map id (messages (page w)))).
      { eapply Forall_impl; [|exact B]. simpl. intros; lia. }
      repeat split.
      * now apply sorted_snoc.
      * apply Forall_app. split.
        -- eapply Forall_impl; [|exact B]. simpl. intros; lia.
        -- repeat constructor. lia.
      * repeat constructor; simpl; [lia|].
        apply Forall_app. split.
        -- eapply Forall_impl; [|exact Blt]. simpl. intros; lia.
        -- repeat constructor. lia.
  - (* Settled *)
    apply R. simpl. destruct (awaiting w) as [|k ks] eqn:A; [exact H|].
    destruct (settled_messages k t date (resumed w)) as (m & Hid & Hm).
    destruct (settled_page k t date (resumed w)) as (_ & Aw & _).
    simpl in I2. assert (ks = []) by (destruct ks; simpl in *; [auto|lia]).
    subst ks. destruct H as (S & B & K). rewrite A in K.
    inversion K as [|? ? [Kh Kb] _]; subst.
    unfold idsBelow. rewrite Hm, Aw. simpl. rewrite A, map_app. simpl.
    rewrite Hid. repeat split.
    + now apply sorted_snoc.
    + apply Forall_app. split; [exact B | repeat constructor; lia].
    + constructor.
Qed.

(** When the clock advances by more than 1 from one call of
    [handleSendMessage] to the next, starting above 1, the ids of the log
    are strictly increasing. *)
Lemma ids_increasing (supported : bool) (date : Z) (es : list Event) :
  spaced 1 es ->
  StronglySorted Z.lt (map id (messages (page (run (mount supported date) es)))).
Proof.
  intros Hs.
  assert (G : forall es hi w, invariant w -> idsBelow hi w -> spaced hi es ->
              exists hi', idsBelow hi' (run w es)).
  { clear. induction es as [|e es IH]; intros hi w Hi Hb Hs.
    - now exists hi.
    - rewrite run_cons. pose proof (idsBelow_step hi w e Hi Hb) as St.
      pose proof (invariant_step w e Hi) as Hi'.
      destruct e; simpl in Hs;
        try (apply (IH hi); [exact Hi' | exact St | exact Hs]).
      destruct Hs as [Hnow Hs]. apply (IH (now + 1)); auto. }
  destruct (G es 1 (mount supported date)) as (hi' & S & _); trivial.
  - apply invariant_mount.
  - unfold idsBelow. simpl. repeat split; repeat constructor. lia.
Qed.

(** ** The voice output toggle *)



(** ** Starting voice input *)

(** C10. [toggleVoiceInput] with a recognition instance and not
    listening empties the composed buffer, whatever it held, and then
    asks the engine to start. *)
Theorem voice_input_clears_draft (w : World)
    (Hrecognition : recognition (page w) = true)
    (Hidle : isListening (page w) = false) :
  let w' := toggleVoiceInput w in
  inputMessage (page w') = []
  /\ capture w' = capture w ++ [Start]
  /\ messages (page w') = messages (page w)
  /\ isListening (page w') = false.
Proof.
  unfold toggleVoiceInput. rewrite Hrecognition, Hidle. simpl.
  repeat split; try reflexivity. exact Hidle.
Qed.

Lemma voice_input_clears_draft_witness :
  let w := step (mount true 0) (Change (js "a draft not sent yet")) in
  inputMessage (page w) = js "a draft not sent yet"
  /\ inputMessage (page (toggleVoiceInput w)) = []
  /\ capture (toggleVoiceInput w) = [Start].
Proof.
  intros w.
  destruct (voice_input_clears_draft w) as (H1 & H2 & _).
  - reflexivity.
  - reflexivity.
  - repeat split; assumption.
Defined.

(** ** What listening leaves in the composed buffer *)


Lemma step_toggle_start (w : World) :
  voiceSupported (page w) = true ->
  recognition (page w) = true ->
  isLoading (page w) = false ->
  isListening (page w) = false ->
  let w' := step w ToggleVoiceInput in
  inputMessage (page w') = []
  /\ capture w' = capture w ++ [Start]
  /\ isListening (page w') = false
  /\ voiceSupported (page w') = true
  /\ recognition (page w') = true
  /\ isLoading (page w') = false.
Proof.
  intros S R L I. unfold step. rewrite render_page, render_capture. simpl.
  rewrite S, L. simpl. unfold toggleVoiceInput. rewrite R, I. simpl.
  repeat split; assumption.
Qed.

Lemma step_toggle_stop (w : World) :
  voiceSupported (page w) = true ->
  recognition (page w) = true ->
  isLoading (page w) = false ->
  isListening (page w) = true ->
  let w' := step w ToggleVoiceInput in
  inputMessage (page w') = inputMessage (page w)
  /\ capture w' = capture w ++ [Stop]
  /\ isListening (page w') = true
  /\ recognition (page w') = true.
Proof.
  intros S R L I. unfold step. rewrite render_page, render_capture. simpl.
  rewrite S, L. simpl. unfold toggleVoiceInput. rewrite R, I. simpl.
  repeat split; assumption.
Qed.

Lemma step_onstart (w : World) :
  recognition (page w) = true ->
  let w' := step w Recognition_onstart in
  inputMessage (page w') = inputMessage (page w)
  /\ capture w' = capture w
  /\ isListening (page w') = true
  /\ voiceSupported (page w') = voiceSupported (page w)
  /\ recognition (page w') = true
  /\ isLoading (page w') = isLoading (page w).
Proof.
  intros R. unfold step. rewrite render_page, render_capture. simpl.
  rewrite R. simpl. repeat split; assumption.
Qed.

Lemma step_onresult (w : World) (event : SpeechRecognitionEvent) :
  recognition (page w) = true ->
  let w' := step w (Recognition_onresult event) in
  inputMessage (page w')
  = (if truthy (finalOf event) then finalOf event else inputMessage (page w))
  /\ recognition (page w') = true
  /\ isListening (page w') = isListening (page w)
  /\ capture w' = capture w.
Proof.
  intros R. unfold step. rewrite render_page, render_capture. simpl.
  rewrite R. unfold onresult. fold (finalOf event).
  destruct (truthy (finalOf event)); repeat split; auto.
Qed.


Lemma run_onresult_any (events : list SpeechRecognitionEvent) (w : World) :
  recognition (page w) = true ->
  let w' := run w (map Recognition_onresult events) in
  recognition (page w') = true
  /\ isListening (page w') = isListening (page w)
  /\ capture w' = capture w.
Proof.
  revert w. induction events as [|e es IH]; intros w R; cbn [map].
  - repeat split; auto.
  - cbv zeta. destruct (step_onresult w e R) as (_ & Hr & Hl & Hc).
    destruct (IH (step w (Recognition_onresult e)) Hr) as (Hr' & Hl' & Hc').
    rewrite run_cons. repeat split; congruence.
Qed.

Lemma step_onend (w : World) :
  let w' := step w Recognition_onend in
  inputMessage (page w') = inputMessage (page w)
  /\ capture w' = capture w
  /\ (recognition (page w) = true -> isListening (page w') = false).
Proof.
  unfold step. rewrite render_page, render_capture. simpl.
  destruct (recognition (page w)); repeat split; auto; discriminate.
Qed.



(** ** The end of listening *)

Lemma handleSendMessage_isListening (w : World) arg now date :
  isListening (page (handleSendMessage arg now date w)) = isListening (page w).
Proof.
  unfold handleSendMessage.
  destruct (negb (truthy (trim _)) || isLoading (page w)); reflexivity.
Qed.

Lemma step_not_listening (w : World) (e : Event) :
  starts e = false ->
  isListening (page w) = false ->
  isListening (page (step w e)) = false.
Proof.
  intros S L. unfold step. rewrite render_page.
  destruct e; simpl; try discriminate.
  - now rewrite L.
  - now rewrite handleSendMessage_isListening.
  - destruct (awaiting w) as [|k ks]; [exact L|].
    destruct (settled_page k t date (resumed w)) as (_ & _ & _ & Li & _).
    now rewrite Li.
  - destruct (voiceSupported (page w) && negb (isLoading (page w)));
      [|exact L].
    unfold toggleVoiceInput. destruct (recognition (page w)); [|exact L].
    rewrite L. exact L.
  - unfold toggleVoiceOutput. destruct (isSpeaking (page w)); exact L.
  - destruct (recognition (page w)); [|exact L].
    unfold onresult. destruct (truthy _); exact L.
  - destruct (recognition (page w)); [reflexivity | exact L].
  - destruct (recognition (page w)); [reflexivity | exact L].
  - destruct (utterances w); exact L.
  - unfold utteranceDone. destruct (utterances w); exact L.
  - unfold utteranceDone. destruct (utterances w); exact L.
Qed.

Lemma run_not_listening (es : list Event) (w : World) :
  forallb (fun e => negb (starts e)) es = true ->
  isListening (page w) = false ->
  isListening (page (run w es)) = false.
Proof.
  revert w. induction es as [|e es IH]; intros w S L; [exact L|].
  simpl in S. apply andb_true_iff in S. destruct S as [Se Ses].
  rewrite run_cons. apply IH; [exact Ses|].
  apply step_not_listening; [|exact L]. now destruct (starts e).
Qed.

Lemma step_terminal (w : World) (e : Event) :
  reachable w ->
  e = Recognition_onend \/ (exists code, e = Recognition_onerror code) ->
  isListening (page (step w e)) = false.
Proof.
  intros Hreach He.
  destruct (reachable_invariant w Hreach) as (_ & _ & Hinv).
  unfold step. rewrite render_page.
  destruct He as [-> | [code ->]]; simpl;
    destruct (recognition (page w)); auto.
Qed.

(** C6. After an end or an error event of the engine [isListening] is
    false, and it stays false until the engine starts again; a start and
    a stop asked of the engine, with whatever results arrive before the
    engine ends, leave the page not listening.  The same holds for the
    [VoiceInput] component, which stops listening as soon as it asks. *)
Theorem listening_ends
    (w : World) (code : jsstring) (es : list Event)
    (w0 : World) (events : list SpeechRecognitionEvent)
    (s s0 : VoiceInput.State)
    (Hreach : reachable w)
    (Hnostart : forallb (fun e => negb (starts e)) es = true)
    (Hsupported : voiceSupported (page w0) = true)
    (Hrecognition : recognition (page w0) = true)
    (Hnotloading : isLoading (page w0) = false)
    (Hidle : isListening (page w0) = false)
    (Hrecognition0 : VoiceInput.recognition s0 = true)
    (Hidle0 : VoiceInput.isListening s0 = false) :
  isListening (page (run (step w Recognition_onend) es)) = false
  /\ isListening (page (run (step w (Recognition_onerror code)) es)) = false
  /\ (let w' := run w0 ([ToggleVoiceInput; Recognition_onstart; ToggleVoiceInput]
                        ++ map Recognition_onresult events
                        ++ [Recognition_onend]) in
      capture w' = capture w0 ++ [Start; Stop]
      /\ isListening (page w') = false)
  /\ VoiceInput.isListening (VoiceInput.onend s) = false
  /\ VoiceInput.isListening (VoiceInput.onerror code s) = false
  /\ (let s' := VoiceInput.toggleListening
                  (VoiceInput.onstart (VoiceInput.toggleListening s0)) in
      VoiceInput.calls s' = VoiceInput.calls s0 ++ [Start; Stop]
      /\ VoiceInput.isListening s' = false
      /\ VoiceInput.isListening (VoiceInput.onend s') = false).
Proof.
  split; [|split; [|split; [|split; [|split]]]].
  - apply run_not_listening; [exact Hnostart|].
    apply step_terminal; [exact Hreach | now left].
  - apply run_not_listening; [exact Hnostart|].
    apply step_terminal; [exact Hreach | right; now exists code].
  - intros w'. unfold w'. rewrite run_app. rewrite !run_cons.
    change (run ?x []) with x.
    destruct (step_toggle_start w0 Hsupported Hrecognition Hnotloading Hidle)
      as (_ & C1 & _ & S1 & R1 & L1).
    destruct (step_onstart (step w0 ToggleVoiceInput) R1)
      as (_ & C2 & I2 & S2 & R2 & L2).
    rewrite S1 in S2. rewrite L1 in L2.
    destruct (step_toggle_stop _ S2 R2 L2 I2) as (_ & C3 & _ & R3).
    rewrite run_app.
    destruct (run_onresult_any events _ R3) as (R4 & _ & C4).
    destruct (step_onend (run (step (step (step w0 ToggleVoiceInput)
                Recognition_onstart) ToggleVoiceInput)
                (map Recognition_onresult events))) as (_ & C5 & L5).
    unfold run at 1. simpl fold_left. split.
    + rewrite C5, C4, C3, C2, C1, <- app_assoc. reflexivity.
    + exact (L5 R4).
  - reflexivity.
  - reflexivity.
  - unfold VoiceInput.toggleListening at 2. rewrite Hrecognition0, Hidle0.
    simpl. unfold VoiceInput.toggleListening. simpl. rewrite Hrecognition0.
    simpl. rewrite <- app_assoc. repeat split; reflexivity.
Qed.

Lemma listening_ends_witness :
  let w := run (mount true 0) [ToggleVoiceInput; Recognition_onstart] in
  isListening (page w) = true
  /\ isListening
       (page (run (step w (Recognition_onerror (js "no-speech")))
                [Change (js "typed instead")])) = false
  /\ capture (run (mount true 0)
               ([ToggleVoiceInput; Recognition_onstart; ToggleVoiceInput]
                ++ map Recognition_onresult [final "hello"]
                ++ [Recognition_onend]))
     = [Start; Stop].
Proof.
  intros w.
  set (s0 := {| VoiceInput.isListening := false; VoiceInput.transcript := [];
                VoiceInput.recognition := true; VoiceInput.calls := [];
                VoiceInput.reported := [] |}).
  destruct (listening_ends w (js "no-speech") [Change (js "typed instead")]
              (mount true 0) [final "hello"] s0 s0)
    as (_ & H2 & (H3 & _) & _).
  - unfold w. exists true, 0, [ToggleVoiceInput; Recognition_onstart].
    reflexivity.
  - reflexivity.
  - reflexivity.
  - reflexivity.
  - reflexivity.
  - reflexivity.
  - reflexivity.
  - reflexivity.
  - split; [reflexivity|]. split; [exact H2 | exact H3].
Defined.

(** ** Errors of the recognition engine *)





(** * More properties of the chat page *)

(** ** What [trim] keeps *)

Lemma trimStart_split (l : jsstring) :
  exists p, l = p ++ trimStart l /\ forallb isWhiteSpace p = true.
Proof.
  induction l as [|c l (p & E & W)]; simpl.
  - now exists [].
  - destruct (isWhiteSpace c) eqn:C.
    + exists (c :: p). simpl. rewrite C, W. split; [now f_equal | reflexivity].
    + now exists [].
Qed.

Lemma trim_factor (s : jsstring) :
  exists a b, s = a ++ trim s ++ b
    /\ forallb isWhiteSpace a = true /\ forallb isWhiteSpace b = true.
Proof.
  destruct (trimStart_split s) as (a & Ea & Wa).
  destruct (trimStart_split (rev (trimStart s))) as (p & Ep & Wp).
  exists a, (rev p). unfold trim. repeat split; trivial.
  - rewrite <- rev_app_distr, <- Ep, rev_involutive. exact Ea.
  - now rewrite forallb_rev.
Qed.

Lemma trim_edges (s : jsstring) (d : N) :
  trim s <> [] ->
  isWhiteSpace (hd d (trim s)) = false
  /\ isWhiteSpace (last (trim s) d) = false.
Proof.
  unfold trim. intros H.
  destruct (trimStart_split (rev (trimStart s))) as (p & Ep & Wp).
  set (u := trimStart (rev (trimStart s))) in *.
  destruct (trimStart_shape (rev (trimStart s))) as [E | (c & u' & E & Hc)];
    fold u in E; [rewrite E in H; now contradiction H|].
  split.
  - assert (Et : trimStart s = rev u ++ rev p).
    { rewrite <- rev_app_distr, <- Ep. now rewrite rev_involutive. }
    destruct (trimStart_shape s) as [E0 | (c0 & t' & E0 & Hc0)].
    + rewrite E0 in Et. symmetry in Et. apply app_eq_nil in Et.
      destruct Et as [Et _]. now contradiction H.
    + destruct (rev u) as [|x r] eqn:R; [now contradiction H|].
      rewrite E0 in Et. simpl in Et. injection Et as -> _. exact Hc0.
  - rewrite E. simpl. now rewrite last_last.
Qed.

(** ** The log only grows *)

Lemma settled_bot_message (k : Suspended) (t : Transport) (date : Z)
    (w : World) :
  exists m, type m = bot
    /\ messages (page (snd (handleSendMessage_settled k t date w)))
       = messages (page w) ++ [m].
Proof.
  destruct (failed t) eqn:F.
  - rewrite handleSendMessage_settled_failed by exact F.
    now exists (errorMessage (k_timestamp k) date).
  - destruct t as [status r| |]; try discriminate.
    rewrite handleSendMessage_settled_answered by exact F.
    exists (botMessage (k_timestamp k) date r). split; [reflexivity|].
    unfold speakResponse. now destruct (k_voiceOutputEnabled k).
Qed.

Lemma step_extends (w : World) (e : Event) :
  exists l, messages (page (step w e)) = messages (page w) ++ l.
Proof.
  unfold step. rewrite render_page.
  pose proof (unchanged_log w e) as U.
  destruct e; try (exists []; rewrite app_nil_r; exact (proj1 U)).
  - simpl. unfold handleSendMessage.
    destruct (negb (truthy (trim _)) || isLoading (page w)).
    + exists []. now rewrite app_nil_r.
    + eexists. reflexivity.
  - simpl. destruct (awaiting w) as [|k ks].
    + exists []. now rewrite app_nil_r.
    + destruct (settled_bot_message k t date (resumed w)) as (m & _ & E).
      exists [m]. exact E.
Qed.

(** X1. No event removes or rewrites a message: after any events the log
    is the log before followed by the new messages. *)
Theorem log_append_only (w : World) (es : list Event) :
  exists l, messages (page (run w es)) = messages (page w) ++ l.
Proof.
  revert w. induction es as [|e es IH]; intros w.
  - exists []. now rewrite app_nil_r.
  - rewrite run_cons. destruct (IH (step w e)) as (l2 & E2).
    destruct (step_extends w e) as (l1 & E1).
    exists (l1 ++ l2). now rewrite E2, E1, app_assoc.
Qed.

(** ** The shape of the log *)







(** X3. The text of an accepted message is the text given with the white
    space at its two ends removed, and nothing else: what the log shows
    and what the request carries are both that text. *)
Theorem sent_text_is_trimmed
    (w : World) (arg : option jsstring) (now date : Z)
    (Hnonblank : forallb isWhiteSpace (composed arg w) = false)
    (Hidle : isLoading (page w) = false) :
  let w' := step w (Send arg now date) in
  exists sent before after,
    composed arg w = before ++ sent ++ after
    /\ forallb isWhiteSpace before = true
    /\ forallb isWhiteSpace after = true
    /\ sent <> []
    /\ isWhiteSpace (hd 32%N sent) = false
    /\ isWhiteSpace (last sent 32%N) = false
    /\ map content (messages (page w'))
       = map content (messages (page w)) ++ [sent]
    /\ map message (network w') = map message (network w) ++ [sent].
Proof.
  intros w'.
  destruct (handleSendMessage_accepted w arg now date Hnonblank Hidle)
    as (Hm & _ & _ & Hn & _).
  destruct (trim_factor (composed arg w)) as (a & b & E & Wa & Wb).
  assert (T : trim (composed arg w) <> []).
  { intros T. apply trim_nil in T. congruence. }
  exists (trim (composed arg w)), a, b. repeat split; trivial.
  - apply trim_edges, T.
  - apply trim_edges, T.
  - unfold w', step. rewrite render_page.
    replace (messages (page (handle (Send arg now date) w)))
      with (messages (page w) ++ [userMessage arg now date w])
      by (symmetry; exact Hm).
    now rewrite map_app.
  - unfold w', step. rewrite render_network.
    replace (network (handle (Send arg now date) w))
      with (network w ++ [request arg w]) by (symmetry; exact Hn).
    now rewrite map_app.
Qed.

Lemma sent_text_is_trimmed_witness :
  let w := mount true 0 in
  exists sent before after,
    js "  go online? " = before ++ sent ++ after
    /\ forallb isWhiteSpace before = true
    /\ forallb isWhiteSpace after = true
    /\ map message
         (network (step w (Send (Some (js "  go online? ")) 1700000000000 1)))
       = [sent].
Proof.
  intros w.
  destruct (sent_text_is_trimmed w (Some (js "  go online? ")) 1700000000000 1)
    as (sent & a & b & E & Wa & Wb & _ & _ & _ & _ & Hn).
  - reflexivity.
  - reflexivity.
  - exists sent, a, b. repeat split; assumption.
Defined.

(** ** One utterance at a time *)

Lemma cancelsFirst_app (b : bool) (l r : list SynthesisCall) :
  cancelsFirst b (l ++ Cancel :: r)
  = cancelsFirst b l && cancelsFirst true r.
Proof.
  revert b. induction l as [|c l IH]; intros b; simpl; [reflexivity|].
  destruct c; [apply IH|]. rewrite IH. now rewrite andb_assoc.
Qed.

Lemma cancelsFirst_nil_r (b : bool) (l : list SynthesisCall) :
  cancelsFirst b (l ++ []) = cancelsFirst b l.
Proof. now rewrite app_nil_r. Qed.

(** The calls an event makes on the synthesis engine: none, a cancel, or
    a cancel and then one utterance. *)
Lemma step_synthesis (w : World) (e : Event) :
  let w' := step w e in
  (synthesis w' = synthesis w
   /\ (utterances w' = utterances w \/ utterances w' = tl (utterances w)))
  \/ (synthesis w' = synthesis w ++ [Cancel] /\ utterances w' = [])
  \/ (exists u, synthesis w' = synthesis w ++ [Cancel; Speak u]
                /\ utterances w' = [u]).
Proof.
  unfold step. rewrite render_synthesis, render_utterances.
  destruct e; simpl.
  - left. destruct (isListening (page w)); auto.
  - left. unfold handleSendMessage.
    destruct (negb (truthy (trim _)) || isLoading (page w)); auto.
  - destruct (awaiting w) as [|k ks]; [left; auto|].
    destruct (failed t) eqn:F.
    + rewrite handleSendMessage_settled_failed by exact F. left. auto.
    + destruct t as [status r| |]; try discriminate.
      rewrite handleSendMessage_settled_answered by exact F.
      unfold speakResponse. destruct (k_voiceOutputEnabled k); simpl.
      * right. right. exists (utterance (response r)). split; [|reflexivity].
        now rewrite <- app_assoc.
      * right. left. auto.
  - left. destruct (voiceSupported (page w) && negb (isLoading (page w)));
      [|auto].
    unfold toggleVoiceInput. destruct (recognition (page w)); [|auto].
    destruct (isListening (page w)); auto.
  - unfold toggleVoiceOutput. destruct (isSpeaking (page w)); simpl; auto.
  - left. destruct (recognition (page w)); auto.
  - left. destruct (recognition (page w)); [|auto].
    unfold onresult. destruct (truthy _); auto.
  - left. destruct (recognition (page w)); auto.
  - left. destruct (recognition (page w)); auto.
  - left. destruct (utterances w) eqn:E; simpl; rewrite ?E; auto.
  - left. unfold utteranceDone.
    destruct (utterances w) eqn:E; simpl; rewrite ?E; auto.
  - left. unfold utteranceDone.
    destruct (utterances w) eqn:E; simpl; rewrite ?E; auto.
Qed.

(** X4. On every page reached from the first render the synthesis engine
    holds at most one utterance, and every utterance it was ever given
    came right after a cancel. *)
Theorem one_utterance (w : World) (Hreach : reachable w) :
  (List.length (utterances w) <= 1)%nat
  /\ cancelsFirst false (synthesis w) = true.
Proof.
  destruct Hreach as (supported & date & es & ->).
  assert (G : forall es w,
            (List.length (utterances w) <= 1)%nat
            /\ cancelsFirst false (synthesis w) = true ->
            (List.length (utterances (run w es)) <= 1)%nat
            /\ cancelsFirst false (synthesis (run w es)) = true).
  { clear. induction es as [|e es IH]; intros w [L C]; [now split|].
    rewrite run_cons. apply IH.
    destruct (step_synthesis w e) as [(S & [U | U]) | [(S & U) | (u & S & U)]];
      rewrite S, U.
    - now split.
    - split; [|exact C]. destruct (utterances w); simpl in *; lia.
    - split; [simpl; lia|]. rewrite cancelsFirst_app, C. reflexivity.
    - split; [simpl; lia|]. rewrite cancelsFirst_app, C. reflexivity. }
  apply G. simpl. split; [lia | reflexivity].
Qed.

Lemma one_utterance_witness :
  let r1 := Answered 200 {| response := js "first"; earner_insights := None |} in
  let r2 := Answered 200 {| response := js "second"; earner_insights := None |} in
  let w := run (mount true 0)
             [Send (Some (js "one")) 1700000000000 1; Settled r1 2;
              Utterance_onstart;
              Send (Some (js "two")) 1700000000500 3; Settled r2 4] in
  utterances w = [utterance (js "second")]
  /\ (List.length (utterances w) <= 1)%nat.
Proof.
  intros r1 r2 w. split; [reflexivity|].
  apply (one_utterance w). unfold w.
  now exists true, 0,
    [Send (Some (js "one")) 1700000000000 1; Settled r1 2;
     Utterance_onstart;
     Send (Some (js "two")) 1700000000500 3; Settled r2 4].
Defined.

(** ** Voice input only fills the composed buffer *)

Lemma voiceInput_step (w : World) (e : Event) :
  voiceInput e = true ->
  let w' := step w e in
  messages (page w') = messages (page w)
  /\ network w' = network w
  /\ awaiting w' = awaiting w
  /\ synthesis w' = synthesis w
  /\ utterances w' = utterances w
  /\ isLoading (page w') = isLoading (page w)
  /\ voiceOutputEnabled (page w') = voiceOutputEnabled (page w).
Proof.
  intros V. unfold step.
  rewrite render_page, render_network, render_awaiting, render_synthesis,
    render_utterances.
  destruct e; try discriminate; simpl.
  - destruct (voiceSupported (page w) && negb (isLoading (page w)));
      [|repeat split].
    unfold toggleVoiceInput. destruct (recognition (page w)); [|repeat split].
    destruct (isListening (page w)); repeat split.
  - destruct (recognition (page w)); repeat split.
  - destruct (recognition (page w)); [|repeat split].
    unfold onresult. destruct (truthy _); repeat split.
  - destruct (recognition (page w)); repeat split.
  - destruct (recognition (page w)); repeat split.
Qed.


(** X5. The microphone button and the events of the recognition engine,
    in any number and order, send no request, add no message, speak
    nothing and leave [isLoading] as it is: what was heard is never sent
    by itself. *)
Theorem voice_input_never_sends (w : World) (es : list Event)
    (Hvoice : forallb voiceInput es = true) :
  let w' := run w es in
  messages (page w') = messages (page w)
  /\ network w' = network w
  /\ awaiting w' = awaiting w
  /\ synthesis w' = synthesis w
  /\ utterances w' = utterances w
  /\ isLoading (page w') = isLoading (page w)
  /\ voiceOutputEnabled (page w') = voiceOutputEnabled (page w).
Proof.
  revert w. induction es as [|e es IH]; intros w; cbv zeta.
  - repeat split.
  - simpl in Hvoice. apply andb_true_iff in Hvoice. destruct Hvoice as [Ve Ves].
    rewrite run_cons.
    destruct (voiceInput_step w e Ve) as (A1 & A2 & A3 & A4 & A5 & A6 & A7).
    destruct (IH Ves (step w e)) as (B1 & B2 & B3 & B4 & B5 & B6 & B7).
    repeat split; congruence.
Qed.

Lemma voice_input_never_sends_witness :
  let w := run (mount true 0) (listening [interim "go"; final "go online"]) in
  inputMessage (page w) = js "go online"
  /\ network w = []
  /\ messages (page w) = messages (page (mount true 0)).
Proof.
  intros w.
  destruct (voice_input_never_sends (mount true 0)
              (listening [interim "go"; final "go online"]))
    as (H1 & H2 & _).
  - reflexivity.
  - split; [reflexivity|]. split; [exact H2 | exact H1].
Defined.

(** ** From the microphone to the request *)







(** ** A message typed and sent *)

Lemma step_keeps_voiceOutput (w : World) (e : Event) :
  e <> ToggleVoiceOutput ->
  voiceOutputEnabled (page (step w e)) = voiceOutputEnabled (page w).
Proof.
  intros D. unfold step. rewrite render_page. destruct e; simpl.
  - now destruct (isListening (page w)).
  - unfold handleSendMessage.
    now destruct (negb (truthy (trim _)) || isLoading (page w)).
  - destruct (awaiting w) as [|k ks]; [reflexivity|].
    destruct (failed t) eqn:F.
    + now rewrite handleSendMessage_settled_failed by exact F.
    + destruct t as [status r| |]; try discriminate.
      rewrite handleSendMessage_settled_answered by exact F.
      unfold speakResponse. now destruct (k_voiceOutputEnabled k).
  - destruct (voiceSupported (page w) && negb (isLoading (page w)));
      [|reflexivity].
    unfold toggleVoiceInput. destruct (recognition (page w)); [|reflexivity].
    now destruct (isListening (page w)).
  - now contradiction D.
  - now destruct (recognition (page w)).
  - destruct (recognition (page w)); [|reflexivity].
    unfold onresult. now destruct (truthy _).
  - now destruct (recognition (page w)).
  - now destruct (recognition (page w)).
  - now destruct (utterances w).
  - unfold utteranceDone. now destruct (utterances w).
  - unfold utteranceDone. now destruct (utterances w).
Qed.

Lemma step_change (w : World) (v : jsstring) :
  isListening (page w) = false ->
  v <> inputMessage (page w) ->
  let w' := step w (Change v) in
  inputMessage (page w') = v
  /\ memoVoiceOutputEnabled w' = voiceOutputEnabled (page w)
  /\ voiceOutputEnabled (page w') = voiceOutputEnabled (page w)
  /\ isLoading (page w') = isLoading (page w)
  /\ messages (page w') = messages (page w)
  /\ synthesis w' = synthesis w.
Proof.
  intros L D. unfold step. simpl. rewrite L. unfold render, sameDeps. simpl.
  destruct (jsstring_eqb (inputMessage (page w)) v) eqn:E.
  - apply jsstring_eqb_eq in E. congruence.
  - simpl. repeat split.
Qed.

(** X7. A message typed and then sent, with nothing else in between, is
    answered aloud exactly when voice output is enabled: the engine is
    cancelled and, if voice output is enabled, given the reply with the
    symbols of [cleanText] removed. *)
Theorem typed_reply_spoken
    (w : World) (v : jsstring) (now date date' : Z)
    (status : Z) (r : ResponseData)
    (Hreach : reachable w)
    (Hnotlistening : isListening (page w) = false)
    (Hnotloading : isLoading (page w) = false)
    (Htyped : v <> inputMessage (page w))
    (Hnonblank : forallb isWhiteSpace v = false)
    (Hanswered : failed (Answered status r) = false) :
  let w' := run w [Change v; Send None now date;
                   Settled (Answered status r) date'] in
  synthesis w'
  = synthesis w
    ++ Cancel :: (if voiceOutputEnabled (page w)
                  then [Speak (utterance (response r))] else [])
  /\ voiceOutputEnabled (page w') = voiceOutputEnabled (page w)
  /\ map content (messages (page w'))
     = map content (messages (page w)) ++ [trim v; response r].
Proof.
  intros w'.
  destruct (step_change w v Hnotlistening Htyped)
    as (I1 & M1 & V1 & L1 & G1 & S1).
  set (w1 := step w (Change v)) in *.
  assert (R1 : reachable w1) by (apply reachable_step, Hreach).
  assert (C1 : composed None w1 = v) by exact I1.
  assert (B1 : forallb isWhiteSpace (composed None w1) = false)
    by (rewrite C1; exact Hnonblank).
  assert (L1' : isLoading (page w1) = false) by congruence.
  destruct (reply_spoken w1 None now date date' status r R1 B1 L1' Hanswered)
    as (Hm & Hs).
  change (run w1 [Send None now date; Settled (Answered status r) date'])
    with w' in Hm, Hs.
  repeat split.
  - rewrite Hs, S1, M1. reflexivity.
  - unfold w'. rewrite !run_cons. fold w1. change (run ?x []) with x.
    rewrite !step_keeps_voiceOutput by discriminate. exact V1.
  - rewrite Hm, G1, map_app. cbn [map]. unfold userMessage, botMessage.
    cbn [content]. now rewrite C1.
Qed.

Lemma typed_reply_spoken_witness :
  let w := step (mount true 0) ToggleVoiceOutput in
  let r := {| response := js "Go online now"; earner_insights := None |} in
  let w' := run w [Change (js "when?"); Send None 1700000000000 1;
                   Settled (Answered 200 r) 2] in
  voiceOutputEnabled (page w') = false
  /\ synthesis w' = [Cancel].
Proof.
  intros w r w'.
  destruct (typed_reply_spoken w (js "when?") 1700000000000 1 2 200 r)
    as (H1 & H2 & _).
  - apply reachable_step, reachable_mount.
  - reflexivity.
  - reflexivity.
  - discriminate.
  - reflexivity.
  - reflexivity.
  - split; [exact H2 | exact H1].
Defined.

(** ** The text given to the engine *)

Lemma below_class (c : N) : (c < 0x2705)%N -> inClass c = false.
Proof.
  intros H. unfold inClass, symbolClass. simpl.
  repeat (rewrite (proj2 (N.eqb_neq c _)) by lia). reflexivity.
Qed.

Lemma cleanText_app (a b : jsstring) :
  cleanText (a ++ b) = cleanText a ++ cleanText b.
Proof. unfold cleanText. apply filter_app. Qed.

(** X8. [cleanText] removes the code units of its class and nothing
    else, keeping the rest in order: no code unit of the class is left,
    cleaning twice is cleaning once, and a text whose code units are all
    below 0x2705 (plain ASCII among them) is given to the engine as it
    is. *)
Theorem cleanText_removes_class (t : jsstring)
    (Hplain : Forall (fun c => (c < 0x2705)%N) t) :
  (forall s, Forall (fun c => inClass c = false) (cleanText s))
  /\ (forall s c, In c (cleanText s) <-> In c s /\ inClass c = false)
  /\ (forall s, cleanText (cleanText s) = cleanText s)
  /\ (forall a b, cleanText (a ++ b) = cleanText a ++ cleanText b)
  /\ cleanText t = t.
Proof.
  assert (A : forall s c, In c (cleanText s) <-> In c s /\ inClass c = false).
  { intros s c. unfold cleanText. rewrite filter_In. unfold inClass.
    now rewrite negb_true_iff. }
  split; [|split; [exact A|split; [|split; [exact cleanText_app|]]]].
  - intros s. apply Forall_forall. intros c Hc. now apply A in Hc.
  - intros s. unfold cleanText.
    induction s as [|c s IH]; cbn [filter]; [reflexivity|].
    destruct (negb (existsb (N.eqb c) symbolClass)) eqn:E; cbn [filter];
      [rewrite E; now f_equal | exact IH].
  - unfold cleanText.
    induction Hplain as [|c s Hc _ IH]; cbn [filter]; [reflexivity|].
    apply below_class in Hc. unfold inClass in Hc. rewrite Hc. cbn [negb].
    now f_equal.
Qed.

Lemma cleanText_removes_class_witness :
  cleanText (js "Go online now") = js "Go online now"
  /\ cleanText ([0xD83D; 0xDE80]%N ++ js " Go online now ")
     = js " Go online now ".
Proof.
  destruct (cleanText_removes_class (js "Go online now")) as (_ & _ & _ & _ & H).
  - repeat constructor.
  - split; [exact H | reflexivity].
Defined.

(** X9. The class is matched code unit by code unit, so a symbol that is
    not one of the listed ones but starts with the same first half
    (0xD83D or 0xD83C, as every emoji from U+1F000 to U+1F7FF does)
    loses that half: its second half is given to the engine alone. *)
Theorem cleanText_splits_pairs
    (before after : jsstring) (high low : N)
    (Hhigh : high = 0xD83D%N \/ high = 0xD83C%N)
    (Hlow : inClass low = false) :
  cleanText (before ++ [high; low] ++ after)
  = cleanText before ++ [low] ++ cleanText after.
Proof.
  rewrite !cleanText_app. f_equal. f_equal.
  unfold inClass in Hlow.
  destruct Hhigh as [-> | ->]; unfold cleanText; cbn [filter];
    rewrite Hlow; reflexivity.
Qed.

Lemma cleanText_splits_pairs_witness :
  cleanText (js "Nice " ++ [0xD83D; 0xDE00]%N ++ js " day")
  = js "Nice " ++ [0xDE00]%N ++ js " day".
Proof.
  rewrite (cleanText_splits_pairs (js "Nice ") (js " day") 0xD83D 0xDE00).
  - reflexivity.
  - now left.
  - reflexivity.
Defined.

(** ** [VoiceInput] and [ChatInterface] *)


Lemma chatInterface_heard (c : VoiceInput.Callback) (w : ChatInterface.World) :
  let w' := ChatInterface.handle (ChatInterface.Heard c) w in
  ChatInterface.messages (ChatInterface.ui w')
  = ChatInterface.messages (ChatInterface.ui w)
  /\ ChatInterface.network w' = ChatInterface.network w
  /\ ChatInterface.awaiting w' = ChatInterface.awaiting w
  /\ ChatInterface.isLoading (ChatInterface.ui w')
     = ChatInterface.isLoading (ChatInterface.ui w).
Proof. destruct c; repeat split. Qed.

(** X11. Whatever [VoiceInput] reports to [ChatInterface], transcripts
    and errors alike, no request is sent and no message is added; after
    the reports of a session with a final text the input field holds the
    last final text. *)
Theorem chat_interface_voice
    (events : list SpeechRecognitionEvent) (last_final : jsstring)
    (w : ChatInterface.World) (cs : list VoiceInput.Callback)
    (Hsaid : finals events <> [])
    (Hlast : last (finals events) [] = last_final) :
  (let w' := ChatInterface.run w (map ChatInterface.Heard cs) in
   ChatInterface.messages (ChatInterface.ui w')
   = ChatInterface.messages (ChatInterface.ui w)
   /\ ChatInterface.network w' = ChatInterface.network w
   /\ ChatInterface.isLoading (ChatInterface.ui w')
      = ChatInterface.isLoading (ChatInterface.ui w))
  /\ ChatInterface.inputValue
       (ChatInterface.ui
          (ChatInterface.run w
             (map ChatInterface.Heard
                (map VoiceInput.onTranscript (finals events)))))
     = last_final.
Proof.
  split.
  - revert w. induction cs as [|c cs IH]; intros w; [repeat split|].
    simpl map. unfold ChatInterface.run in *. simpl fold_left.
    destruct (IH (ChatInterface.handle (ChatInterface.Heard c) w))
      as (M & N & L).
    destruct (chatInterface_heard c w) as (M' & N' & _ & L').
    cbv zeta. repeat split;
      [exact (eq_trans M M') | exact (eq_trans N N') | exact (eq_trans L L')].
  - subst last_final. revert w.
    induction (finals events) as [|f fs IH]; intros w; [now contradiction Hsaid|].
    simpl map. unfold ChatInterface.run in *. simpl fold_left.
    destruct fs as [|g fs]; [reflexivity|].
    rewrite IH by discriminate. reflexivity.
Qed.

Lemma chat_interface_voice_witness :
  let events := [interim "show"; final "show my forecast"] in
  let s := {| VoiceInput.isListening := true; VoiceInput.transcript := [];
              VoiceInput.recognition := true; VoiceInput.calls := [Start];
              VoiceInput.reported := [] |} in
  let w := ChatInterface.run (ChatInterface.mount 0)
             (map ChatInterface.Heard (VoiceInput.reported (heard events s))) in
  ChatInterface.inputValue (ChatInterface.ui w) = js "show my forecast"
  /\ ChatInterface.network w = [].
Proof.
  intros events s w.
  destruct (chat_interface_voice events (js "show my forecast")
              (ChatInterface.mount 0) (VoiceInput.reported (heard events s)))
    as ((_ & N & _) & I).
  - discriminate.
  - reflexivity.
  - split; [exact I | exact N].
Defined.

(** ** Sending from [ChatInterface] *)


Lemma ci_sendMessage_accepted (t : jsstring) (date : Z) (w : CI.World) :
  forallb isWhiteSpace t = false ->
  let n := List.length (CI.messages (CI.ui w)) in
  let w' := CI.sendMessage t date w in
  CI.messages (CI.ui w')
  = CI.messages (CI.ui w)
    ++ [ {| CI.id := Z.of_nat n + 1; CI.text := Some (trim t);
            CI.sender := user; CI.timestamp := date |} ]
  /\ CI.network w'
     = CI.network w
       ++ [ {| CI.message := trim t;
               CI.lastMessages := CI.slice_5 (CI.messages (CI.ui w)) |} ]
  /\ CI.awaiting w' = CI.awaiting w ++ [ {| CI.k_length := n |} ]
  /\ CI.inputValue (CI.ui w') = []
  /\ CI.isLoading (CI.ui w') = true
  /\ CI.error (CI.ui w') = CI.error (CI.ui w).
Proof.
  intros B. unfold CI.sendMessage. rewrite truthy_trim, B. simpl.
  repeat split.
Qed.

(** X12. [sendMessage] looks at its text only: it changes nothing
    exactly when the text is empty or white space.  It does not look at
    [isLoading], so a call made while a request is awaited sends a second
    request. *)
Theorem chat_interface_gate (t : jsstring) (date : Z) (w : CI.World) :
  (CI.sendMessage t date w = w <-> forallb isWhiteSpace t = true)
  /\ (forallb isWhiteSpace t = false ->
      List.length (CI.network (CI.sendMessage t date w))
      = S (List.length (CI.network w))).
Proof.
  split; [split|].
  - intros E. destruct (forallb isWhiteSpace t) eqn:B; [reflexivity|].
    destruct (ci_sendMessage_accepted t date w B) as (_ & _ & _ & _ & L & _).
    apply (f_equal (fun w => List.length (CI.network w))) in E.
    destruct (ci_sendMessage_accepted t date w B) as (_ & N & _).
    rewrite N, length_app in E. simpl in E. lia.
  - intros B. unfold CI.sendMessage. now rewrite truthy_trim, B.
  - intros B. destruct (ci_sendMessage_accepted t date w B) as (_ & N & _).
    rewrite N, length_app. simpl. lia.
Qed.

Lemma chat_interface_gate_witness :
  let w := CI.sendMessage (js "first") 1 (CI.mount 0) in
  CI.isLoading (CI.ui w) = true
  /\ List.length (CI.network (CI.sendMessage (js "second") 2 w)) = 2%nat
  /\ CI.sendMessage (js "  ") 2 w = w.
Proof.
  intros w.
  destruct (chat_interface_gate (js "second") 2 w) as (_ & H).
  destruct (chat_interface_gate (js "  ") 2 w) as ((_ & G) & _).
  split; [reflexivity|]. split; [exact (H eq_refl) | exact (G eq_refl)].
Defined.

(** The ids of the log are its places, no request is awaited unless
    loading, and a suspended call has seen all of the log but its own
    user message. *)
Lemma positioned_snoc (l : list CI.Message) (m : CI.Message) :
  positioned l -> CI.id m = Z.of_nat (List.length l) + 1 ->
  positioned (l ++ [m]).
Proof.
  intros P E i x H.
  destruct (Nat.lt_ge_cases i (List.length l)) as [Lt | Ge].
  - rewrite nth_error_app1 in H by exact Lt. now apply P.
  - rewrite nth_error_app2 in H by exact Ge.
    destruct (i - List.length l)%nat as [|j] eqn:D; simpl in H.
    + injection H as <-. rewrite E. f_equal. f_equal. lia.
    + destruct j; discriminate.
Qed.

Lemma ci_invariant (es : list CI.Event) (w : CI.World) :
  positioned (CI.messages (CI.ui w))
  /\ (CI.isLoading (CI.ui w) = false -> CI.awaiting w = [])
  /\ (List.length (CI.awaiting w) <= 1)%nat
  /\ Forall (fun k => S (CI.k_length k)
                      = List.length (CI.messages (CI.ui w))) (CI.awaiting w) ->
  positioned (CI.messages (CI.ui (CI.run w es))).
Proof.
  revert w. induction es as [|e es IH]; intros w (P & A & L & K); [exact P|].
  unfold CI.run in *. simpl fold_left. apply IH. clear IH.
  destruct e as [v | date | r date | c |]; simpl.
  - destruct (CI.isLoading (CI.ui w)) eqn:Ld; simpl; repeat split; auto;
      intros; congruence.
  - destruct (CI.isLoading (CI.ui w)) eqn:Ld;
      [repeat split; auto; intros; congruence|].
    unfold CI.sendMessage.
    destruct (negb (truthy (trim _)));
      [repeat split; auto; intros; congruence|].
    simpl. rewrite (A eq_refl). simpl. repeat split.
    + apply positioned_snoc; [exact P | reflexivity].
    + discriminate.
    + lia.
    + repeat constructor. rewrite length_app. simpl. lia.
  - destruct (CI.awaiting w) as [|k ks] eqn:Aw;
      [repeat split; rewrite ?Aw; simpl; auto; try lia; constructor|].
    simpl in L. assert (ks = []) by (destruct ks; simpl in *; [auto|lia]).
    subst ks. inversion K as [|? ? Kk _]; subst.
    unfold CI.sendMessage_settled.
    destruct (CI.resolved r); simpl; rewrite Aw; simpl; repeat split;
      try (apply positioned_snoc; [exact P|]; simpl; lia);
      try lia; constructor.
  - destruct c; simpl; repeat split; auto.
  - repeat split; auto.
Qed.

(** X13. In every [ChatInterface] reached from its first render the id
    of each message is its place in the log, counted from 1: the ids are
    1, 2, 3, ... without gap or repeat, whether the requests succeed or
    fail. *)
Theorem chat_interface_ids (w : CI.World) (Hreach : CI.reachable w) :
  positioned (CI.messages (CI.ui w))
  /\ NoDup (map CI.id (CI.messages (CI.ui w))).
Proof.
  assert (P : positioned (CI.messages (CI.ui w))).
  { destruct Hreach as (date & es & ->). apply ci_invariant. simpl.
    repeat split; auto.
    intros [|i] m H; simpl in H; [now injection H as <-|].
    destruct i; discriminate. }
  split; [exact P|].
  apply (NoDup_nth (map CI.id (CI.messages (CI.ui w))) 0).
  intros i j Hi Hj E. rewrite length_map in Hi, Hj.
  destruct (nth_error (CI.messages (CI.ui w)) i) as [a|] eqn:Ea;
    [|apply nth_error_None in Ea; lia].
  destruct (nth_error (CI.messages (CI.ui w)) j) as [b|] eqn:Eb;
    [|apply nth_error_None in Eb; lia].
  assert (Na : nth i (map CI.id (CI.messages (CI.ui w))) 0 = CI.id a).
  { apply nth_error_nth. now rewrite nth_error_map, Ea. }
  assert (Nb : nth j (map CI.id (CI.messages (CI.ui w))) 0 = CI.id b).
  { apply nth_error_nth. now rewrite nth_error_map, Eb. }
  rewrite Na, Nb, (P i a Ea), (P j b Eb) in E. lia.
Qed.

Lemma chat_interface_ids_witness :
  let ok := CI.Answered 200 {| CI.data_response := Some (js "Go online now");
                               CI.data_message := None |} in
  let w := CI.run (CI.mount 0)
             [CI.Change (js "hello"); CI.Submit 1; CI.Settled CI.NoAnswer 2;
              CI.Change (js "again"); CI.Submit 3; CI.Settled ok 4] in
  map CI.id (CI.messages (CI.ui w)) = [1; 2; 3; 4; 5]
  /\ NoDup (map CI.id (CI.messages (CI.ui w))).
Proof.
  intros ok w. split; [reflexivity|].
  apply (chat_interface_ids w). unfold w.
  now exists 0,
    [CI.Change (js "hello"); CI.Submit 1; CI.Settled CI.NoAnswer 2;
     CI.Change (js "again"); CI.Submit 3; CI.Settled ok 4].
Defined.

(** X14. [sendMessage] numbers a reply from the log its own call saw.
    Called twice before the first request settles, it gives the second
    user message and the first reply the same id. *)
Theorem chat_interface_overlap
    (w : CI.World) (t1 t2 : jsstring) (d1 d2 d3 : Z) (r : CI.Reply)
    (Hnone : CI.awaiting w = [])
    (Hfirst : forallb isWhiteSpace t1 = false)
    (Hsecond : forallb isWhiteSpace t2 = false) :
  let w' := CI.handle (CI.Settled r d3)
              (CI.sendMessage t2 d2 (CI.sendMessage t1 d1 w)) in
  exists u1 u2 b1,
    CI.messages (CI.ui w') = CI.messages (CI.ui w) ++ [u1; u2; b1]
    /\ CI.sender u1 = user /\ CI.sender u2 = user /\ CI.sender b1 = bot
    /\ CI.id u2 = CI.id b1
    /\ List.length (CI.network w') = S (S (List.length (CI.network w))).
Proof.
  intros w'.
  destruct (ci_sendMessage_accepted t1 d1 w Hfirst)
    as (M1 & N1 & A1 & _).
  destruct (ci_sendMessage_accepted t2 d2 (CI.sendMessage t1 d1 w) Hsecond)
    as (M2 & N2 & A2 & _).
  rewrite M1 in M2. rewrite N1 in N2. rewrite A1, Hnone in A2. simpl in A2.
  rewrite length_app in M2. simpl in M2.
  unfold w'. simpl. rewrite A2. unfold CI.sendMessage_settled.
  destruct (CI.resolved r); simpl; rewrite M2, <- !app_assoc; simpl;
    (do 3 eexists; split; [reflexivity|]; simpl; repeat split;
     [lia | rewrite N2, !length_app; simpl; lia]).
Qed.

Lemma chat_interface_overlap_witness :
  let w := CI.handle (CI.Settled CI.NoAnswer 3)
             (CI.sendMessage (js "second") 2
                (CI.sendMessage (js "first") 1 (CI.mount 0))) in
  map CI.id (CI.messages (CI.ui w)) = [1; 2; 3; 3].
Proof.
  intros w.
  destruct (chat_interface_overlap (CI.mount 0) (js "first") (js "second")
              1 2 3 CI.NoAnswer) as (u1 & u2 & b1 & M & _).
  - reflexivity.
  - reflexivity.
  - reflexivity.
  - reflexivity.
Defined.

Lemma slice_5_suffix (l : list CI.Message) :
  (exists older, l = older ++ CI.slice_5 l)
  /\ List.length (CI.slice_5 l) = Nat.min 5 (List.length l).
Proof.
  unfold CI.slice_5. split.
  - exists (firstn (List.length l - 5) l). symmetry. apply firstn_skipn.
  - rewrite length_skipn. lia.
Qed.

(** X15. The context sent with a message is the last five messages of
    the log as it was before the message (all of it when it has fewer),
    in order; the message being sent is not part of it. *)
Theorem chat_interface_context
    (w : CI.World) (t : jsstring) (date : Z)
    (Hnonblank : forallb isWhiteSpace t = false) :
  exists body older,
    CI.network (CI.sendMessage t date w) = CI.network w ++ [body]
    /\ CI.message body = trim t
    /\ CI.messages (CI.ui w) = older ++ CI.lastMessages body
    /\ List.length (CI.lastMessages body)
       = Nat.min 5 (List.length (CI.messages (CI.ui w))).
Proof.
  destruct (ci_sendMessage_accepted t date w Hnonblank) as (_ & N & _).
  destruct (slice_5_suffix (CI.messages (CI.ui w))) as ((older & E) & L).
  eexists. exists older. split; [exact N|]. simpl. repeat split; assumption.
Qed.

Lemma chat_interface_context_witness :
  let ok := CI.Answered 200 {| CI.data_response := Some (js "Go online now");
                               CI.data_message := None |} in
  let w := CI.run (CI.mount 0)
             [CI.Change (js "a"); CI.Submit 1; CI.Settled ok 2;
              CI.Change (js "b"); CI.Submit 3; CI.Settled ok 4;
              CI.Change (js "c"); CI.Submit 5; CI.Settled ok 6] in
  List.length (CI.messages (CI.ui w)) = 7%nat
  /\ exists body,
       CI.network (CI.sendMessage (js "d") 7 w) = CI.network w ++ [body]
       /\ List.length (CI.lastMessages body) = 5%nat.
Proof.
  intros ok w. split; [reflexivity|].
  destruct (chat_interface_context w (js "d") 7)
    as (body & older & N & _ & _ & L).
  - reflexivity.
  - exists body. split; [exact N | exact L].
Defined.

(** X16. When the request of a submitted message fails (no answer, or a
    status that is not 2xx), the log has grown by the user's message and
    the bot's apology, the error text of the snackbar is set, loading is
    over and the field is empty; closing the snackbar clears the error
    text and nothing else. *)
Theorem chat_interface_failure
    (w : CI.World) (date date' : Z) (r : CI.Reply)
    (Hreach : CI.reachable w)
    (Hnonblank : forallb isWhiteSpace (CI.inputValue (CI.ui w)) = false)
    (Hidle : CI.isLoading (CI.ui w) = false)
    (Hfailed : CI.resolved r = None) :
  let n := Z.of_nat (List.length (CI.messages (CI.ui w))) in
  let w' := CI.run w [CI.Submit date; CI.Settled r date'] in
  CI.messages (CI.ui w')
  = CI.messages (CI.ui w)
    ++ [ {| CI.id := n + 1; CI.text := Some (trim (CI.inputValue (CI.ui w)));
            CI.sender := user; CI.timestamp := date |};
         {| CI.id := n + 2;
            CI.text := Some (js "Sorry, I'm having trouble responding right now. Please try again in a moment.");
            CI.sender := bot; CI.timestamp := date' |} ]
  /\ CI.error (CI.ui w') = js "Failed to get response. Please try again."
  /\ CI.isLoading (CI.ui w') = false
  /\ CI.inputValue (CI.ui w') = []
  /\ CI.awaiting w' = []
  /\ CI.error (CI.ui (CI.handle CI.CloseError w')) = []
  /\ CI.messages (CI.ui (CI.handle CI.CloseError w')) = CI.messages (CI.ui w').
Proof.
  intros n w'.
  assert (A : CI.awaiting w = []).
  { destruct Hreach as (d0 & es & ->).
    assert (G : forall es w,
              (CI.isLoading (CI.ui w) = false -> CI.awaiting w = [])
              /\ (List.length (CI.awaiting w) <= 1)%nat ->
              (CI.isLoading (CI.ui (CI.run w es)) = false ->
               CI.awaiting (CI.run w es) = [])
              /\ (List.length (CI.awaiting (CI.run w es)) <= 1)%nat).
    { clear. induction es as [|e es IH]; intros w (A & L); [now split|].
      unfold CI.run in *. simpl fold_left. apply IH. clear IH.
      destruct e as [v | date | r date | c |]; simpl.
      - destruct (CI.isLoading (CI.ui w)) eqn:Ld; simpl; split; auto;
          intros; congruence.
      - destruct (CI.isLoading (CI.ui w)) eqn:Ld;
          [split; auto; intros; congruence|].
        unfold CI.sendMessage.
        destruct (negb (truthy (trim _))); [split; auto|].
        simpl. rewrite (A eq_refl). simpl. split; [discriminate | lia].
      - destruct (CI.awaiting w) as [|k ks] eqn:Aw;
          [split; rewrite ?Aw; simpl; auto|].
        simpl in L. assert (ks = []) by (destruct ks; simpl in *; [auto|lia]).
        subst ks. unfold CI.sendMessage_settled.
        destruct (CI.resolved r); simpl; rewrite Aw; simpl; split; auto.
      - destruct c; simpl; split; auto.
      - split; auto. }
    apply G; [|exact Hidle]. simpl. split; auto. }
  destruct (ci_sendMessage_accepted (CI.inputValue (CI.ui w)) date w Hnonblank)
    as (M & _ & K & I & _).
  rewrite A in K. simpl in K.
  unfold w', CI.run. simpl fold_left. rewrite Hidle.
  unfold CI.handle at 1. rewrite K.
  unfold CI.sendMessage_settled. rewrite Hfailed. simpl.
  rewrite M, K, <- app_assoc. simpl.
  replace (Z.of_nat (List.length (CI.messages (CI.ui w))) + 2) with (n + 2)
    by reflexivity.
  repeat split. exact I.
Qed.

Lemma chat_interface_failure_witness :
  let w := CI.handle (CI.Change (js "hello")) (CI.mount 0) in
  let w' := CI.run w [CI.Submit 1; CI.Settled (CI.Answered 500
              {| CI.data_response := None; CI.data_message := None |}) 2] in
  map CI.id (CI.messages (CI.ui w')) = [1; 2; 3]
  /\ CI.error (CI.ui w') = js "Failed to get response. Please try again.".
Proof.
  intros w w'.
  destruct (chat_interface_failure w 1 2 (CI.Answered 500
              {| CI.data_response := None; CI.data_message := None |}))
    as (M & E & _).
  - now exists 0, [CI.Change (js "hello")].
  - reflexivity.
  - reflexivity.
  - reflexivity.
  - split; [|exact E]. unfold w'. rewrite M. reflexivity.
Defined.

(** ** [apiUtils] *)


(** X18. An error is at most one of a network error, a server error and
    a client error; one with a response whose status is below 400 is none
    of them. *)
Theorem error_classes_exclusive
    (error quiet : ApiUtils.ErrorObject) (r : ApiUtils.Response) (n : Z)
    (Hresponse : ApiUtils.response quiet = Some r)
    (Hstatus : ApiUtils.status r = Some n)
    (Hlow : n < 400) :
  (Nat.b2n (ApiUtils.isNetworkError error)
   + Nat.b2n (ApiUtils.isServerError error)
   + Nat.b2n (ApiUtils.isClientError error) <= 1)%nat
  /\ ApiUtils.isNetworkError quiet = false
  /\ ApiUtils.isServerError quiet = false
  /\ ApiUtils.isClientError quiet = false.
Proof.
  split.
  - unfold ApiUtils.isNetworkError, ApiUtils.isServerError,
      ApiUtils.isClientError.
    destruct error as [[[[k|] d]|] rq m]; simpl.
    + destruct (500 <=? k) eqn:S, (400 <=? k) eqn:C, (k <? 500) eqn:B;
        simpl; lia.
    + lia.
    + destruct rq; simpl; lia.
  - unfold ApiUtils.isNetworkError, ApiUtils.isServerError,
      ApiUtils.isClientError.
    rewrite Hresponse. destruct r as [st d]. simpl in Hstatus. subst st.
    repeat split.
    + apply Z.leb_gt. lia.
    + apply andb_false_iff. left. apply Z.leb_gt. lia.
Qed.

Lemma error_classes_exclusive_witness :
  let e := {| ApiUtils.response :=
                Some {| ApiUtils.status := Some 304; ApiUtils.detail := None |};
              ApiUtils.request := true; ApiUtils.message := None |} in
  ApiUtils.isNetworkError e = false
  /\ ApiUtils.isServerError e = false
  /\ ApiUtils.isClientError e = false.
Proof.
  intros e.
  destruct (error_classes_exclusive e e
              {| ApiUtils.status := Some 304; ApiUtils.detail := None |} 304)
    as (_ & H).
  - reflexivity.
  - reflexivity.
  - lia.
  - exact H.
Defined.

(** X19. What [chatAPI.sendMessage] throws for a failed request is a
    plain [Error] with its fixed message: to [apiUtils] it is neither a
    network, nor a server, nor a client error, whatever the failure was,
    and [formatError] shows the fixed message. *)
Theorem wrapped_error_is_opaque (t : Transport) (w : World)
    (Hfailed : failed t = true) :
  exists thrown error,
    chatAPI_sendMessage_settled t w = (Throw thrown, w)
    /\ ApiUtils.caught thrown = Some error
    /\ ApiUtils.isNetworkError error = false
    /\ ApiUtils.isServerError error = false
    /\ ApiUtils.isClientError error = false
    /\ ApiUtils.formatError error
       = js "Failed to send message. Please try again.".
Proof.
  eexists. eexists. split; [apply chatAPI_sendMessage_failed, Hfailed|].
  repeat split.
Qed.

Lemma wrapped_error_is_opaque_witness :
  exists thrown,
    fst (chatAPI_sendMessage_settled
           (Answered 503 {| response := []; earner_insights := None |})
           (mount true 0)) = Throw thrown
    /\ exists error, ApiUtils.caught thrown = Some error
         /\ ApiUtils.isServerError error = false.
Proof.
  destruct (wrapped_error_is_opaque
              (Answered 503 {| response := []; earner_insights := None |})
              (mount true 0)) as (thrown & error & E & C & _ & S & _).
  - reflexivity.
  - exists thrown. split; [now rewrite E|]. exists error. now split.
Defined.

(** ** The hours of [EarningsPage] *)

Lemma ep_step_hours (w : EP.World) (e : EP.Event) :
  1 <= EP.hours (EP.ui w) <= 24 ->
  Forall (fun r => 1 <= EP.hoursOf r <= 24) (EP.network w) ->
  1 <= EP.hours (EP.ui (EP.step w e)) <= 24
  /\ Forall (fun r => 1 <= EP.hoursOf r <= 24) (EP.network (EP.step w e)).
Proof.
  intros H F. unfold EP.step.
  assert (G : forall v : EP.World,
            1 <= EP.hours (EP.ui v) <= 24 ->
            Forall (fun r => 1 <= EP.hoursOf r <= 24) (EP.network v) ->
            1 <= EP.hours (EP.ui (EP.predictEarnings v)) <= 24
            /\ Forall (fun r => 1 <= EP.hoursOf r <= 24)
                 (EP.network (EP.predictEarnings v))).
  { intros v Hv Fv. split; [exact Hv|]. simpl. apply Forall_app.
    split; [exact Fv|]. repeat constructor; simpl; lia. }
  assert (K : 1 <= EP.hours (EP.ui (EP.handle e w)) <= 24
              /\ Forall (fun r => 1 <= EP.hoursOf r <= 24)
                   (EP.network (EP.handle e w))).
  { destruct e; simpl; try (split; [lia | exact F]);
      try (split; [exact H | exact F]).
    apply G; assumption. }
  destruct K as [K1 K2].
  destruct (EP.hours (EP.ui (EP.handle e w)) =? EP.hours (EP.ui w));
    [now split | now apply G].
Qed.

(** X20. On every [EarningsPage] reached from its first render the hours
    to work are between 1 and 24, and so are the hours of every request
    that was sent. *)
Theorem earnings_hours_in_range (w : EP.World) (Hreach : EP.reachable w) :
  1 <= EP.hours (EP.ui w) <= 24
  /\ Forall (fun r => 1 <= EP.hoursOf r <= 24) (EP.network w).
Proof.
  destruct Hreach as (es & ->).
  assert (G : forall es w,
            1 <= EP.hours (EP.ui w) <= 24
            /\ Forall (fun r => 1 <= EP.hoursOf r <= 24) (EP.network w) ->
            1 <= EP.hours (EP.ui (EP.run w es)) <= 24
            /\ Forall (fun r => 1 <= EP.hoursOf r <= 24)
                 (EP.network (EP.run w es))).
  { clear. induction es as [|e es IH]; intros w [H F]; [now split|].
    unfold EP.run in *. simpl fold_left. apply IH.
    now apply ep_step_hours. }
  apply G. simpl. split; [lia|]. repeat constructor; simpl; lia.
Qed.

Lemma earnings_hours_in_range_witness :
  let w := EP.run EP.mount (repeat EP.Minus 10 ++ repeat EP.Plus 30) in
  EP.hours (EP.ui w) = 24
  /\ Forall (fun r => 1 <= EP.hoursOf r <= 24) (EP.network w).
Proof.
  intros w. split; [vm_compute; reflexivity|].
  apply (earnings_hours_in_range w).
  now exists (repeat EP.Minus 10 ++ repeat EP.Plus 30).
Defined.

(** X21. A prediction is asked for when the hours change and when the
    update button is pressed, two requests each time, with the hours,
    context and platform of the page.  The button [-] at 1 hour, the
    button [+] at 24 hours, the choice of a platform and the editing of
    the context send nothing: the platform shown as selected can differ
    from the platform of the last request. *)
Theorem earnings_requests
    (w low high : EP.World) (id : EP.Platform) (value : jsstring)
    (Hmore : 1 < EP.hours (EP.ui w))
    (Hlow : EP.hours (EP.ui low) = 1)
    (Hhigh : EP.hours (EP.ui high) = 24) :
  EP.network (EP.step w EP.Minus)
  = EP.network w
    ++ [ EP.Predict EP.earnerId (EP.hours (EP.ui w) - 1)
           (EP.additionalContext (EP.ui w));
         EP.MultiPlatform EP.earnerId (EP.hours (EP.ui w) - 1)
           (EP.selectedPlatform (EP.ui w)) ]
  /\ EP.network (EP.step w EP.Update)
     = EP.network w
       ++ [ EP.Predict EP.earnerId (EP.hours (EP.ui w))
              (EP.additionalContext (EP.ui w));
            EP.MultiPlatform EP.earnerId (EP.hours (EP.ui w))
              (EP.selectedPlatform (EP.ui w)) ]
  /\ EP.step low EP.Minus = low
  /\ EP.step high EP.Plus = high
  /\ EP.network (EP.step w (EP.SelectPlatform id)) = EP.network w
  /\ EP.selectedPlatform (EP.ui (EP.step w (EP.SelectPlatform id))) = id
  /\ EP.network (EP.step w (EP.ChangeContext value)) = EP.network w.
Proof.
  unfold EP.step. simpl. rewrite !Z.eqb_refl.
  replace (Z.max 1 (EP.hours (EP.ui w) - 1)) with (EP.hours (EP.ui w) - 1)
    by lia.
  replace (EP.hours (EP.ui w) - 1 =? EP.hours (EP.ui w)) with false
    by (symmetry; apply Z.eqb_neq; lia).
  rewrite Hlow, Hhigh. simpl.
  repeat split.
  - destruct low as [[h c p l] n]. simpl in *. now subst h.
  - destruct high as [[h c p l] n]. simpl in *. now subst h.
Qed.

Lemma earnings_requests_witness :
  let w := EP.step (EP.run EP.mount (repeat EP.Minus 7))
             (EP.SelectPlatform EP.eats) in
  EP.hours (EP.ui w) = 1
  /\ EP.step w EP.Minus = w
  /\ EP.selectedPlatform (EP.ui w) = EP.eats
  /\ last (EP.network w) (EP.Predict [] 0 [])
     = EP.MultiPlatform EP.earnerId 1 EP.both.
Proof.
  intros w.
  destruct (earnings_requests EP.mount w
              (EP.run EP.mount (repeat EP.Plus 16)) EP.eats [])
    as (_ & _ & H & _).
  - vm_compute. reflexivity.
  - vm_compute. reflexivity.
  - vm_compute. reflexivity.
  - split; [vm_compute; reflexivity|].
    split; [exact H|].
    split; vm_compute; reflexivity.
Defined.
